(** * MyMediaTrek: the request handlers of [app.py] over a model of the store

    The four Flask views of [src/app.py] ([admin_register], [login],
    [media_api], [item_api]) are embedded as functions in a small state and
    exception monad.  The state is what one request sees of the PostgreSQL
    store through its single connection: the current view of the two tables,
    the view of the last commit, and the store's answers that the handler
    cannot control (whether a call raises).  The SQL statements of the
    handlers are embedded one by one, with the statement text kept in the
    comment above each definition. *)

From stdpp Require Import gmap strings list fin_maps sorting pretty.
From Stdlib Require Import ZArith Lia.
From Stdlib Require Import Ascii.

Set Warnings "-register-all".
Set Default Proof Using "Type".

Open Scope Z_scope.

(** ** Python values that travel through the handlers *)

(** A scalar taken from the JSON body of a request and handed to the
    database driver as a statement parameter: [None] (JSON null, SQL NULL),
    a boolean, an integer or text.  Floating-point numbers and nested JSON
    values are left out. *)
Inductive pyval : Type :=
  | PNone
  | PBool (b : bool)
  | PInt (n : Z)
  | PStr (s : string).

#[global] Instance pyval_eq_dec : EqDecision pyval.
Proof. solve_decision. Defined.

(** Python truthiness, as used by [if not username or not password]. *)
Definition truthy (v : pyval) : bool :=
  match v with
  | PNone => false
  | PBool b => b
  | PInt n => negb (Z.eqb n 0)
  | PStr s => negb (String.eqb s EmptyString)
  end.

(** [str(v)], as used by the f-strings of the handlers. *)
Definition py_str (v : pyval) : string :=
  match v with
  | PNone => "None"
  | PBool true => "True"
  | PBool false => "False"
  | PInt n => pretty n
  | PStr s => s
  end.

(** JSON documents built by [jsonify]. *)
Inductive json : Type :=
  | JNull
  | JBool (b : bool)
  | JNum (n : Z)
  | JString (s : string)
  | JArray (items : list json)
  | JObject (fields : list (string * json)).

Definition json_of_pyval (v : pyval) : json :=
  match v with
  | PNone => JNull
  | PBool b => JBool b
  | PInt n => JNum n
  | PStr s => JString s
  end.

(** ** Exceptions *)

(** Exceptions the database driver raises when a call to the store fails.
    [IntegrityError] is the class the registration handler catches on its
    own.  [Disconnected] stands for the [OperationalError] of a connection
    that the server or the network has closed: with it the driver marks the
    connection closed.  The other three leave the connection open. *)
Inductive db_error : Type :=
  | IntegrityError (msg : string)
  | DataError (msg : string)
  | OperationalError (msg : string)
  | Disconnected (msg : string).

Definition loses_connection (e : db_error) : bool :=
  match e with
  | Disconnected _ => true
  | _ => false
  end.

(** [InterfaceError] is what the driver itself raises when it is called on
    a connection it has marked closed. *)
Inductive exn : Type :=
  | KeyError (key : string)
  | TypeError (msg : string)
  | AttributeError (msg : string)
  | HTTPException (code : Z) (msg : string)
  | NoAuthorizationError
  | DbError (e : db_error)
  | InterfaceError (msg : string).

(** [str(e)] *)
Definition str_exn (e : exn) : string :=
  match e with
  | KeyError key => "'" +:+ key +:+ "'"
  | TypeError msg | AttributeError msg | HTTPException _ msg => msg
  | NoAuthorizationError => "Missing Authorization Header"
  | DbError (IntegrityError msg) | DbError (DataError msg)
  | DbError (OperationalError msg) | DbError (Disconnected msg) => msg
  | InterfaceError msg => msg
  end.

(** ** The store *)

(** The table definitions are not part of the sources.  The columns are
    those the statements of [app.py] name, plus [added_date] of the
    specification.  Column types are not modelled: a column keeps the value
    the driver was given. *)
Module User.
(** Modelled from the spec: the table [users], whose definition is missing
    from the sources; [user_id] is assigned by the store. *)
Record t : Type := mk {
  user_id : Z;
  username : pyval;
  password_hash : string
}.
End User.

Module MediaItem.
(** Modelled from the spec: the table [media_items], whose definition is
    missing from the sources; [media_id] and [added_date] are assigned by
    the store. *)
Record t : Type := mk {
  media_id : Z;
  user_id : Z;
  title : pyval;
  media_type : pyval;
  status : pyval;
  current_progress : pyval;
  rating : pyval;
  comment : pyval;
  added_date : Z
}.
End MediaItem.

#[global] Instance user_eq_dec : EqDecision User.t.
Proof. solve_decision. Defined.
#[global] Instance media_eq_dec : EqDecision MediaItem.t.
Proof. solve_decision. Defined.

(** The two tables. *)
Record Tables : Type := mkTables {
  users : list User.t;
  media_items : list MediaItem.t
}.

(** The store: its tables and the two key generators.  As in PostgreSQL, a
    key generator is not part of a transaction: a key drawn by a statement
    that is later rolled back is not handed out again. *)
Record Store : Type := mkStore {
  tables : Tables;
  users_user_id_seq : Z;
  media_items_media_id_seq : Z
}.

(** What the store decides on its own during one request: whether a
    connection can be opened, which of the successive calls that reach the
    store (statement executions, commits and rollbacks of an open
    transaction) raise, the time of its clock and the salt drawn for a new
    password hash.  A call that raises has had no effect on the tables. *)
Record Env : Type := mkEnv {
  db_up : bool;
  faults : list (option db_error);
  now : Z;
  salt : string
}.

(** The state one request works on.  [view] is the store as the request's
    transaction sees it, [committed] the tables as of the last commit,
    [plan] the remaining answers of [faults], and [raised] the log of the
    exceptions that statements and commits raised so far (kept only to
    state properties).  [in_transaction] and [closed] are the state of the
    connection as the driver keeps it: a transaction was begun by a
    statement and is not yet ended, and the connection was closed. *)
Record World : Type := mkWorld {
  view : Store;
  committed : Tables;
  plan : list (option db_error);
  raised : list db_error;
  in_transaction : bool;
  closed : bool
}.

(** ** The monad of a handler body *)

Inductive result (A : Type) : Type :=
  | Ok (a : A)
  | Raise (e : exn).
Arguments Ok {A} a.
Arguments Raise {A} e.

Definition M (A : Type) : Type := World → result A * World.

#[global] Instance M_ret : MRet M := λ A a w, (Ok a, w).
#[global] Instance M_bind : MBind M := λ A B k m w,
  match m w with
  | (Ok a, w') => k a w'
  | (Raise e, w') => (Raise e, w')
  end.

Definition raise {A : Type} (e : exn) : M A := λ w, (Raise e, w).

(** [try: body except Exception as e: handler(e)] *)
Definition try_except {A : Type} (body : M A) (handler : exn → M A) : M A :=
  λ w, match body w with
       | (Ok a, w') => (Ok a, w')
       | (Raise e, w') => handler e w'
       end.

(** [try: body finally: cleanup] *)
Definition try_finally {A : Type} (body : M A) (cleanup : M unit) : M A :=
  λ w, match body w with
       | (r, w') =>
           match cleanup w' with
           | (Ok _, w'') => (r, w'')
           | (Raise e, w'') => (Raise e, w'')
           end
       end.

(** ** Text as characters *)

(** A Python [str] is a sequence of characters; here a text is kept in the
    bytes of its UTF-8 encoding.  The characters of a text: a byte from 192
    on opens a character and takes the continuation bytes (128 to 191) that
    follow it; every other byte is a character of its own.  On the encoding
    of a [str] these are its characters. *)
Definition continuation (b : ascii) : bool :=
  let n := nat_of_ascii b in ((128 <=? n) && (n <? 192))%nat.

Definition opening (b : ascii) : bool := (192 <=? nat_of_ascii b)%nat.

Fixpoint chars_from (current : option string) (bytes : string) : list string :=
  match bytes with
  | EmptyString => match current with Some c => [c] | None => [] end
  | String b rest =>
      match current with
      | Some c =>
          if continuation b then chars_from (Some (c +:+ String b EmptyString)) rest
          else c :: (if opening b then chars_from (Some (String b EmptyString)) rest
                     else String b EmptyString :: chars_from None rest)
      | None =>
          if opening b then chars_from (Some (String b EmptyString)) rest
          else String b EmptyString :: chars_from None rest
      end
  end.

Definition utf8_chars (text : string) : list string := chars_from None text.

(** ** Pattern matching of [ILIKE] *)

(** A [LIKE] pattern is read left to right, character by character: [%]
    stands for any run of characters, [_] for any one character, a backslash
    makes the character after it stand for itself, and any other character
    stands for itself.  A pattern that ends in a lone backslash is not a
    pattern. *)
Inductive like_token : Type :=
  | AnyRun
  | AnyOne
  | Literal (c : string).

Definition like_token_of (c : string) : like_token :=
  if String.eqb c "%" then AnyRun
  else if String.eqb c "_" then AnyOne
  else Literal c.

Fixpoint like_tokens (escaped : bool) (pattern : list string) : option (list like_token) :=
  match pattern with
  | [] => if escaped then None else Some []
  | c :: rest =>
      if escaped then (Literal c ::.) <$> like_tokens false rest
      else if String.eqb c "\" then like_tokens true rest
      else (like_token_of c ::.) <$> like_tokens false rest
  end.

(** [text ILIKE pattern] for a tokenised pattern and the characters of the
    text.  Two characters match when they are the same after [fold], the
    mapping of a character to lower case in the locale of the database. *)
Fixpoint ilike_tokens (fold : string → string) (tokens : list like_token)
  : list string → bool :=
  match tokens with
  | [] => λ text, match text with [] => true | _ => false end
  | Literal c :: tokens' =>
      λ text, match text with
              | d :: text' =>
                  String.eqb (fold c) (fold d) && ilike_tokens fold tokens' text'
              | [] => false
              end
  | AnyOne :: tokens' =>
      λ text, match text with
              | _ :: text' => ilike_tokens fold tokens' text'
              | [] => false
              end
  | AnyRun :: tokens' =>
      let after := ilike_tokens fold tokens' in
      fix run (text : list string) : bool :=
        after text
        || match text with
           | _ :: text' => run text'
           | [] => false
           end
  end.

(** [value ILIKE pattern] as a row filter: NULL matches nothing. *)
Definition ilike (fold : string → string) (value : pyval) (tokens : list like_token)
  : bool :=
  match value with
  | PStr text => ilike_tokens fold tokens (utf8_chars text)
  | _ => false
  end.

(** [a = b] as a row filter: NULL equals nothing, not even NULL. *)
Definition sql_eq (a b : pyval) : bool :=
  match a, b with
  | PNone, _ | _, PNone => false
  | _, _ => bool_decide (a = b)
  end.

(** ** The statements of the handlers *)

Definition set_tables (s : Store) (t : Tables) : Store :=
  mkStore t (users_user_id_seq s) (media_items_media_id_seq s).

(** A statement maps the store to an answer, or a driver exception, and
    the store after it. *)
Definition statement (A : Type) : Type := Store → (db_error + A) * Store.

(** Modelled from the spec: the uniqueness of [username] in [users], which
    the missing table definition enforces at the store level.  A row with
    this name is already there. *)
Definition username_exists (username : pyval) (rows : list User.t) : Prop :=
  Exists (λ u, sql_eq (User.username u) username = true) rows.

#[global] Instance username_exists_dec username rows :
  Decision (username_exists username rows).
Proof. unfold username_exists. apply _. Defined.

(** [INSERT INTO users (username, password_hash) VALUES (%s, %s)
    RETURNING user_id]; the key is drawn first, then the row is refused
    when the name exists. *)
Definition insert_user (username : pyval) (password_hash : string) : statement Z :=
  λ s,
    let new_user_id := users_user_id_seq s in
    let s' := mkStore (tables s) (new_user_id + 1) (media_items_media_id_seq s) in
    if bool_decide (username_exists username (users (tables s)))
    then (inl (IntegrityError "duplicate key value violates unique constraint"), s')
    else (inr new_user_id,
          set_tables s' (mkTables
            (users (tables s) ++ [User.mk new_user_id username password_hash])
            (media_items (tables s)))).

(** [SELECT * FROM users WHERE username = %s], then [fetchone()] *)
Definition select_user (username : pyval) : statement (option User.t) :=
  λ s, (inr (head (filter (λ u, sql_eq (User.username u) username = true)
                          (users (tables s)))), s).

(** [ORDER BY added_date DESC] *)
Definition newer_first (a b : MediaItem.t) : Prop :=
  MediaItem.added_date b ≤ MediaItem.added_date a.

#[global] Instance newer_first_dec : RelDecision newer_first.
Proof. intros a b. unfold newer_first. apply _. Defined.

(** [SELECT * FROM media_items WHERE user_id = %s ORDER BY added_date DESC],
    with [AND title ILIKE %s] before the ordering when a pattern is given;
    then [fetchall()].  [fold] is the lower case of the database's locale. *)
Definition select_media (fold : string → string) (user_id : Z) (pattern : option string)
  : statement (list MediaItem.t) :=
  λ s,
    let own := filter (λ r, MediaItem.user_id r = user_id) (media_items (tables s)) in
    match pattern with
    | None => (inr (merge_sort newer_first own), s)
    | Some p =>
        match like_tokens false (utf8_chars p) with
        | None => (inl (DataError "LIKE pattern must not end with escape character"), s)
        | Some tokens =>
            (inr (merge_sort newer_first
                    (filter (λ r, ilike fold (MediaItem.title r) tokens = true) own)), s)
        end
    end.

(** [SELECT media_id FROM media_items WHERE title = %s AND user_id = %s],
    then [fetchone()] *)
Definition select_media_id (title : pyval) (user_id : Z) : statement (option Z) :=
  λ s, (inr (MediaItem.media_id <$>
               head (filter (λ r, sql_eq (MediaItem.title r) title = true
                                  ∧ MediaItem.user_id r = user_id)
                            (media_items (tables s)))), s).

(** [INSERT INTO media_items (user_id, title, media_type, status,
    current_progress, rating, comment) VALUES (%s, %s, %s, %s, %s, %s, %s)
    RETURNING media_id]; the store fills in [media_id] and [added_date]. *)
Definition insert_media (added_date : Z)
    (user_id : Z) (title media_type status progress rating comment : pyval)
  : statement Z :=
  λ s,
    let new_id := media_items_media_id_seq s in
    (inr new_id,
     mkStore (mkTables (users (tables s))
                (media_items (tables s) ++
                 [MediaItem.mk new_id user_id title media_type status
                               progress rating comment added_date]))
             (users_user_id_seq s) (new_id + 1)).

(** The rows a [WHERE media_id = %s AND user_id = %s] selects. *)
Definition targeted (media_id user_id : Z) (r : MediaItem.t) : Prop :=
  MediaItem.media_id r = media_id ∧ MediaItem.user_id r = user_id.

#[global] Instance targeted_dec media_id user_id r : Decision (targeted media_id user_id r).
Proof. unfold targeted. apply _. Defined.

(** [DELETE FROM media_items WHERE media_id = %s AND user_id = %s]; the
    answer is [cursor.rowcount]. *)
Definition delete_media (media_id user_id : Z) : statement nat :=
  λ s,
    let rows := media_items (tables s) in
    (inr (length (filter (targeted media_id user_id) rows)),
     set_tables s (mkTables (users (tables s))
                     (filter (λ r, ¬ targeted media_id user_id r) rows))).

(** [UPDATE media_items SET title=%s, media_type=%s, status=%s,
    current_progress=%s, rating=%s, comment=%s
    WHERE media_id=%s AND user_id=%s]; the answer is [cursor.rowcount]. *)
Definition update_media (title media_type status progress rating comment : pyval)
    (media_id user_id : Z) : statement nat :=
  λ s,
    let rows := media_items (tables s) in
    let set (r : MediaItem.t) :=
      if decide (targeted media_id user_id r)
      then MediaItem.mk (MediaItem.media_id r) (MediaItem.user_id r)
                        title media_type status progress rating comment
                        (MediaItem.added_date r)
      else r in
    (inr (length (filter (targeted media_id user_id) rows)),
     set_tables s (mkTables (users (tables s)) (set <$> rows))).

(** ** Requests and responses *)

Inductive http_method : Type := GET | POST | PUT | DELETE.

#[global] Instance http_method_eq_dec : EqDecision http_method.
Proof. solve_decision. Defined.

(** What [request.json] finds in the body: nothing that parses as JSON, a
    JSON value that is not an object, or an object. *)
Inductive req_json : Type :=
  | NotJson
  | JsonOther
  | JsonObject (d : gmap string pyval).

(** The parts of a request the handlers read: [request.method], the
    [X-Admin-Key] header, the bearer token of the [Authorization] header,
    the query parameter [q] and the body. *)
Record Request : Type := mkRequest {
  method : http_method;
  x_admin_key : option string;
  bearer : option string;
  args_q : option string;
  body : req_json
}.

(** A response: the document given to [jsonify] and the status code. *)
Record response : Type := mkResponse {
  document : json;
  status : Z
}.

(** [request.json] *)
Definition request_json (req : Request) : M req_json :=
  match body req with
  | NotJson => raise (HTTPException 400 "Failed to decode JSON object")
  | data => mret data
  end.

(** [data.get(key)] *)
Definition data_get (data : req_json) (key : string) : M pyval :=
  match data with
  | JsonObject d => mret (default PNone (d !! key))
  | _ => raise (AttributeError "object has no attribute 'get'")
  end.

(** [data[key]] *)
Definition data_item (data : req_json) (key : string) : M pyval :=
  match data with
  | JsonObject d =>
      match d !! key with
      | Some v => mret v
      | None => raise (KeyError key)
      end
  | _ => raise (TypeError "object is not subscriptable")
  end.

(** ** The connection *)

(** [get_db_connection()]: the connection, or [None] when connecting
    raised. *)
Definition get_db_connection (env : Env) : M bool := mret (db_up env).

(** One call to the store, [cursor.execute(sql, params)] followed by the
    fetch the handler makes.  The driver refuses it on a closed connection.
    Otherwise the statement begins a transaction if none is open; the store
    may refuse the call on its own ([plan]) or the statement itself may
    raise. *)
Definition execute {A : Type} (stmt : statement A) : M A :=
  λ w,
    if closed w then (Raise (InterfaceError "cursor already closed"), w)
    else
      match plan w with
      | Some e :: rest =>
          (Raise (DbError e),
           mkWorld (view w) (committed w) rest (raised w ++ [e])
                   true (loses_connection e))
      | _ =>
          match stmt (view w) with
          | (inl e, s') =>
              (Raise (DbError e),
               mkWorld s' (committed w) (tail (plan w)) (raised w ++ [e])
                       true (loses_connection e))
          | (inr a, s') =>
              (Ok a, mkWorld s' (committed w) (tail (plan w)) (raised w) true false)
          end
      end.

(** [conn.commit()].  The driver refuses it on a closed connection and
    has nothing to do when no transaction is open; otherwise the [COMMIT]
    goes to the store, which may refuse it ([plan]). *)
Definition commit : M unit :=
  λ w,
    if closed w then (Raise (InterfaceError "connection already closed"), w)
    else if negb (in_transaction w) then (Ok (), w)
    else
      match plan w with
      | Some e :: rest =>
          (Raise (DbError e),
           mkWorld (view w) (committed w) rest (raised w ++ [e])
                   true (loses_connection e))
      | _ =>
          (Ok (), mkWorld (view w) (tables (view w))
                          (tail (plan w)) (raised w) false false)
      end.

(** [conn.rollback()]; the handlers guard it by [if conn], which holds of
    every connection object.  As for [commit]: refused by the driver on a
    closed connection, nothing to do without an open transaction, and
    otherwise a [ROLLBACK] that the store may refuse.  It is called inside
    an [except] branch, so its own exception is not caught there; that
    exception is returned, not logged in [raised]. *)
Definition rollback : M unit :=
  λ w,
    if closed w then (Raise (InterfaceError "connection already closed"), w)
    else if negb (in_transaction w) then (Ok (), w)
    else
      match plan w with
      | Some e :: rest =>
          (Raise (DbError e),
           mkWorld (view w) (committed w) rest (raised w)
                   true (loses_connection e))
      | _ =>
          (Ok (), mkWorld (set_tables (view w) (committed w)) (committed w)
                          (tail (plan w)) (raised w) false false)
      end.

(** [cursor.close(); conn.close()]: neither raises. *)
Definition close : M unit :=
  λ w, (Ok (), mkWorld (view w) (committed w) (plan w) (raised w)
                       (in_transaction w) true).

(** The world a request starts in, and the store it leaves behind: what
    the connection did not commit is dropped by the store. *)
Definition start (env : Env) (s : Store) : World :=
  mkWorld s (tables s) (faults env) [] false false.

Definition finish (w : World) : Store := set_tables (view w) (committed w).

(** Serving one request: the response returned by the view, or the
    exception it lets through to the framework, and the store afterwards. *)
Definition serve (view : Env → Request → M response)
    (env : Env) (req : Request) (s : Store) : result response * Store :=
  let '(r, w) := view env req (start env s) in (r, finish w).

(** The exceptions that statements and commits raised while the request
    was served. *)
Definition store_errors (view : Env → Request → M response)
    (env : Env) (req : Request) (s : Store) : list db_error :=
  raised (view env req (start env s)).2.

Definition jsonify (fields : list (string * json)) : json := JObject fields.

(** [dict(row)] of a row of [media_items] *)
Definition dict_row (r : MediaItem.t) : json :=
  JObject [("media_id", JNum (MediaItem.media_id r));
           ("user_id", JNum (MediaItem.user_id r));
           ("title", json_of_pyval (MediaItem.title r));
           ("media_type", json_of_pyval (MediaItem.media_type r));
           ("status", json_of_pyval (MediaItem.status r));
           ("current_progress", json_of_pyval (MediaItem.current_progress r));
           ("rating", json_of_pyval (MediaItem.rating r));
           ("comment", json_of_pyval (MediaItem.comment r));
           ("added_date", JNum (MediaItem.added_date r))].

(** The status code of what came back, if the view returned. *)
Definition status_of (r : result response) : option Z :=
  match r with
  | Ok resp => Some (status resp)
  | Raise _ => None
  end.

(** [@app.route(rule, methods=...)]: other methods do not reach the view. *)
Definition route (methods : list http_method) (view : Env → Request → M response)
  : Env → Request → M response :=
  λ env req,
    if decide (method req ∈ methods) then view env req
    else raise (HTTPException 405 "Method Not Allowed").

(** ** A small installation, for the examples *)

Module Demo.

(** Stand-ins for the collaborators: the administrator key, the password
    hashing and the tokens of two users. *)
Definition key : string := "master".

Definition hash_password (salt password : string) : string := "hash:" +:+ password.

Definition verify_password (pwhash password : string) : bool :=
  String.eqb pwhash ("hash:" +:+ password).

Definition create_access_token (identity : Z) : string :=
  if Z.eqb identity 1 then "token-alice"
  else if Z.eqb identity 2 then "token-bob"
  else "token".

Definition decode_token (token : string) : option Z :=
  if String.eqb token "token-alice" then Some 1
  else if String.eqb token "token-bob" then Some 2
  else None.

(** The lower case of the C locale: the letters A to Z, nothing else. *)
Definition lower_char (c : string) : string :=
  match c with
  | String b EmptyString =>
      let n := nat_of_ascii b in
      if ((65 <=? n) && (n <=? 90))%nat
      then String (ascii_of_nat (n + 32)) EmptyString else c
  | _ => c
  end.

Definition alice : User.t := User.mk 1 (PStr "alice") "hash:pw1".
Definition bob : User.t := User.mk 2 (PStr "bob") "hash:pw2".

Definition dune : MediaItem.t :=
  MediaItem.mk 1 1 (PStr "Dune") (PStr "book") (PStr "reading") PNone PNone PNone 100.
Definition solaris : MediaItem.t :=
  MediaItem.mk 2 2 (PStr "Solaris") (PStr "movie") (PStr "completed")
               PNone (PInt 5) PNone 200.

(** Alice owns Dune, Bob owns Solaris. *)
Definition store : Store := mkStore (mkTables [alice; bob] [dune; solaris]) 3 3.

(** The store before anyone registered. *)
Definition empty_store : Store := mkStore (mkTables [] []) 1 1.

(** The store answers every call. *)
Definition healthy : Env := mkEnv true [] 300 "salt".

(** The first call to the store fails: the server has closed the
    connection. *)
Definition failing : Env :=
  mkEnv true [Some (Disconnected "server closed the connection unexpectedly")] 300 "salt".


Definition credentials (u p : string) : gmap string pyval :=
  <["username" := PStr u]> (<["password" := PStr p]> ∅).

Definition register_alice : Request :=
  mkRequest POST (Some key) None None (JsonObject (credentials "alice" "pw1")).

Definition register_without_key : Request :=
  mkRequest POST None None None NotJson.

Definition login_alice : Request :=
  mkRequest POST None None None (JsonObject (credentials "alice" "pw1")).

(** A login that names a user and carries no password. *)
Definition login_without_password (u : string) : Request :=
  mkRequest POST None None None (JsonObject (<["username" := PStr u]> ∅)).

Definition solaris_fields : gmap string pyval :=
  <["title" := PStr "Solaris"]>
    (<["media_type" := PStr "movie"]> (<["status" := PStr "watching"]> ∅)).

(** Alice's requests. *)
Definition list_all : Request :=
  mkRequest GET None (Some "token-alice") None NotJson.

Definition search_dun : Request :=
  mkRequest GET None (Some "token-alice") (Some "dUN") NotJson.

Definition search_underscore : Request :=
  mkRequest GET None (Some "token-alice") (Some "_") NotJson.

Definition post_solaris : Request :=
  mkRequest POST None (Some "token-alice") None (JsonObject solaris_fields).

Definition post_dune_title_only : Request :=
  mkRequest POST None (Some "token-alice") None
            (JsonObject (<["title" := PStr "Dune"]> ∅)).

Definition put_title_only : Request :=
  mkRequest PUT None (Some "token-alice") None
            (JsonObject (<["title" := PStr "Dune"]> ∅)).

Definition delete_item : Request :=
  mkRequest DELETE None (Some "token-alice") None NotJson.

Definition delete_item_as_bob : Request :=
  mkRequest DELETE None (Some "token-bob") None NotJson.

Definition dune_fields : gmap string pyval :=
  <["title" := PStr "Dune"]>
    (<["media_type" := PStr "book"]> (<["status" := PStr "reading"]> ∅)).

Definition post_dune : Request :=
  mkRequest POST None (Some "token-alice") None (JsonObject dune_fields).

(** No connection can be opened. *)
Definition unreachable : Env := mkEnv false [] 300 "salt".

Definition register_without_password : Request :=
  mkRequest POST (Some key) None None (JsonObject (<["username" := PStr "carol"]> ∅)).

Definition post_without_json : Request :=
  mkRequest POST None (Some "token-alice") None NotJson.

Definition messiah_fields : gmap string pyval :=
  <["title" := PStr "Dune Messiah"]>
    (<["media_type" := PStr "book"]>
       (<["status" := PStr "completed"]> (<["rating" := PInt 4]> ∅))).

Definition put_messiah : Request :=
  mkRequest PUT None (Some "token-alice") None (JsonObject messiah_fields).

Definition put_dune : Request :=
  mkRequest PUT None (Some "token-alice") None (JsonObject dune_fields).

Definition hyperion : MediaItem.t :=
  MediaItem.mk 3 1 (PStr "Hyperion") (PStr "book") (PStr "planned") PNone PNone PNone 250.

(** Alice owns Dune and Hyperion, Bob owns Solaris. *)
Definition larger_store : Store :=
  mkStore (mkTables [alice; bob] [dune; solaris; hyperion]) 3 4.

End Demo.

(** ** The views *)

Section Views.

(** The configured administrator key. *)
Variable ADMIN_MASTER_KEY : string.

(** The password hashing of [werkzeug.security] on text: the hash of a
    password under a salt, and the check of a password against a hash. *)
Variable hash_password : string → string → string.
Variable verify_password : string → string → bool.

(** The tokens of [flask_jwt_extended] under [JWT_SECRET_KEY]: the token
    issued for an identity, and the identity a token verifies to. *)
Variable create_access_token : Z → string.
Variable decode_token : string → option Z.

(** The lower case of one character in the locale of the database, by which
    [ILIKE] compares. *)
Variable lower_char : string → string.

(** [generate_password_hash(password)]: the library encodes its argument,
    which only text supports. *)
Definition generate_password_hash (env : Env) (password : pyval) : M string :=
  match password with
  | PStr p => mret (hash_password (salt env) p)
  | _ => raise (AttributeError "object has no attribute 'encode'")
  end.

(** [check_password_hash(pwhash, password)] *)
Definition check_password_hash (pwhash : string) (password : pyval) : M bool :=
  match password with
  | PStr p => mret (verify_password pwhash p)
  | _ => raise (AttributeError "object has no attribute 'encode'")
  end.

(** [@jwt_required()] with [get_jwt_identity()]: the view runs with the
    identity of a token that verifies; without one the guard raises. *)
Definition jwt_required (view : Z → Env → Request → M response)
  : Env → Request → M response :=
  λ env req,
    match bearer req ≫= decode_token with
    | Some current_user_id => view current_user_id env req
    | None => raise NoAuthorizationError
    end.

(** [admin_register], lines 52-87 *)
Definition admin_register : Env → Request → M response :=
  route [POST] (λ env req,
    let admin_key := x_admin_key req in
    if decide (admin_key ≠ Some ADMIN_MASTER_KEY)
    then mret (mkResponse
                 (jsonify [("msg", JString "Forbidden: 密鑰錯誤，你沒有權限建立帳號")]) 403)
    else
      data ← request_json req;
      username ← data_get data "username";
      password ← data_get data "password";
      if negb (truthy username) || negb (truthy password)
      then mret (mkResponse (jsonify [("msg", JString "帳號或密碼不能為空")]) 400)
      else
        conn ← get_db_connection env;
        if negb conn
        then mret (mkResponse (jsonify [("msg", JString "DB Error")]) 500)
        else
          hashed_pw ← generate_password_hash env password;
          try_finally
            (try_except
               (new_user_id ← execute (insert_user username hashed_pw);
                commit;;
                mret (mkResponse
                        (jsonify [("msg", JString ("使用者 " +:+ py_str username
                                                   +:+ " 建立成功 (ID: "
                                                   +:+ pretty new_user_id +:+ ")"))])
                        201))
               (λ e,
                  match e with
                  | DbError (IntegrityError _) =>
                      rollback;;
                      mret (mkResponse (jsonify [("msg", JString "帳號已存在")]) 409)
                  | _ =>
                      rollback;;
                      mret (mkResponse (jsonify [("msg", JString (str_exn e))]) 500)
                  end))
            close).

(** [login], lines 90-113 *)
Definition login : Env → Request → M response :=
  route [POST] (λ env req,
    data ← request_json req;
    username ← data_get data "username";
    password ← data_get data "password";
    conn ← get_db_connection env;
    if negb conn
    then mret (mkResponse (jsonify [("msg", JString "DB Error")]) 500)
    else
      try_finally
        (user ← execute (select_user username);
         match user with
         | Some user =>
             ok ← check_password_hash (User.password_hash user) password;
             if (ok : bool)
             then
               let token := create_access_token (User.user_id user) in
               mret (mkResponse
                       (jsonify [("access_token", JString token);
                                 ("username", json_of_pyval (User.username user))])
                       200)
             else mret (mkResponse (jsonify [("msg", JString "帳號或密碼錯誤")]) 401)
         | None => mret (mkResponse (jsonify [("msg", JString "帳號或密碼錯誤")]) 401)
         end)
        close).

(** [media_api], lines 116-168 *)
Definition media_api : Env → Request → M response :=
  route [GET; POST] (jwt_required (λ current_user_id env req,
    conn ← get_db_connection env;
    if negb conn
    then mret (mkResponse (jsonify [("msg", JString "DB Error")]) 500)
    else
      try_finally
        (try_except
           match method req with
           | GET =>
               let q := default EmptyString (args_q req) in
               let pattern :=
                 if negb (String.eqb q EmptyString) then Some ("%" +:+ q +:+ "%") else None in
               items ← execute (select_media lower_char current_user_id pattern);
               mret (mkResponse
                       (jsonify [("status", JString "success");
                                 ("data", JArray (dict_row <$> items))])
                       200)
           | _ => (* [elif request.method == 'POST']: the route admits no other *)
               data ← request_json req;
               title ← data_item data "title";
               found ← execute (select_media_id title current_user_id);
               if bool_decide (is_Some found)
               then
                 title ← data_item data "title";
                 mret (mkResponse
                         (jsonify [("status", JString "error");
                                   ("message", JString ("《" +:+ py_str title
                                                        +:+ "》已經在你的清單裡囉！"))])
                         409)
               else
                 title ← data_item data "title";
                 media_type ← data_item data "media_type";
                 status ← data_item data "status";
                 progress ← data_get data "progress";
                 rating ← data_get data "rating";
                 comment ← data_get data "comment";
                 new_id ← execute (insert_media (now env) current_user_id title
                                     media_type status progress rating comment);
                 commit;;
                 mret (mkResponse
                         (jsonify [("status", JString "success");
                                   ("message", JString "新增成功");
                                   ("media_id", JNum new_id)])
                         201)
           end
           (λ e,
              rollback;;
              mret (mkResponse
                      (jsonify [("status", JString "error");
                                ("message", JString (str_exn e))])
                      500)))
        close)).

(** [item_api], lines 171-212 *)
Definition item_api (media_id : Z) : Env → Request → M response :=
  route [DELETE; PUT] (jwt_required (λ current_user_id env req,
    conn ← get_db_connection env;
    if negb conn
    then mret (mkResponse (jsonify [("msg", JString "DB Error")]) 500)
    else
      try_finally
        (try_except
           match method req with
           | DELETE =>
               rowcount ← execute (delete_media media_id current_user_id);
               commit;;
               if bool_decide (rowcount = 0%nat)
               then mret (mkResponse
                            (jsonify [("status", JString "error");
                                      ("message", JString "刪除失敗 (找不到或無權限)")])
                            404)
               else mret (mkResponse
                            (jsonify [("status", JString "success");
                                      ("message", JString "刪除成功")])
                            200)
           | _ => (* [elif request.method == 'PUT']: the route admits no other *)
               data ← request_json req;
               title ← data_item data "title";
               media_type ← data_item data "media_type";
               status ← data_item data "status";
               progress ← data_get data "progress";
               rating ← data_get data "rating";
               comment ← data_get data "comment";
               rowcount ← execute (update_media title media_type status
                                     progress rating comment
                                     media_id current_user_id);
               commit;;
               if bool_decide (rowcount = 0%nat)
               then mret (mkResponse
                            (jsonify [("status", JString "error");
                                      ("message", JString "更新失敗 (找不到或無權限)")])
                            404)
               else mret (mkResponse
                            (jsonify [("status", JString "success");
                                      ("message", JString "更新成功")])
                            200)
           end
           (λ e,
              rollback;;
              mret (mkResponse
                      (jsonify [("status", JString "error");
                                ("message", JString (str_exn e))])
                      500)))
        close)).

(** ** Responses, and the notions the properties are stated with *)

(* A statement is unfolded where a proof asks for it, not by simplification. *)
#[local] Arguments insert_user : simpl never.
#[local] Arguments select_user : simpl never.
#[local] Arguments select_media : simpl never.
#[local] Arguments select_media_id : simpl never.
#[local] Arguments insert_media : simpl never.
#[local] Arguments delete_media : simpl never.
#[local] Arguments update_media : simpl never.
#[local] Arguments pretty : simpl never.

Definition forbidden : response :=
  mkResponse (jsonify [("msg", JString "Forbidden: 密鑰錯誤，你沒有權限建立帳號")]) 403.

Definition created_user (username : pyval) (new_user_id : Z) : response :=
  mkResponse
    (jsonify [("msg", JString ("使用者 " +:+ py_str username +:+ " 建立成功 (ID: "
                               +:+ pretty new_user_id +:+ ")"))])
    201.

Definition username_taken : response :=
  mkResponse (jsonify [("msg", JString "帳號已存在")]) 409.

(** Unfolding of the monad and of the calls of a view, for proofs that
    follow one run of a handler. *)
Ltac unfold_view :=
  unfold serve, store_errors, route, start, request_json, data_get, data_item,
    get_db_connection, execute, commit, rollback, close, try_finally,
    try_except, raise, mbind, M_bind, mret, M_ret.

(* A method outside those of the route. *)
Ltac absurd_method Hm :=
  repeat (apply elem_of_cons in Hm as [?|Hm]; [done|]); by apply elem_of_nil in Hm.

Definition unauthorized : response :=
  mkResponse (jsonify [("msg", JString "帳號或密碼錯誤")]) 401.

Definition logged_in (user : User.t) : response :=
  mkResponse
    (jsonify [("access_token", JString (create_access_token (User.user_id user)));
              ("username", json_of_pyval (User.username user))])
    200.

(** The one stored user with a given name. *)
Definition user_named (s : Store) (name : string) (user : User.t) : Prop :=
  user ∈ users (tables s)
  ∧ User.username user = PStr name
  ∧ ∀ other, other ∈ users (tables s) → User.username other = PStr name → other = user.

(** The request carries a token that verifies to [user_id]. *)
Definition authenticated (req : Request) (user_id : Z) : Prop :=
  bearer req ≫= decode_token = Some user_id.

Definition listing (items : list MediaItem.t) : response :=
  mkResponse
    (jsonify [("status", JString "success"); ("data", JArray (dict_row <$> items))])
    200.

Definition duplicate_title (title : pyval) : response :=
  mkResponse
    (jsonify [("status", JString "error");
              ("message", JString ("《" +:+ py_str title +:+ "》已經在你的清單裡囉！"))])
    409.

Definition created_media (new_id : Z) : response :=
  mkResponse
    (jsonify [("status", JString "success");
              ("message", JString "新增成功");
              ("media_id", JNum new_id)])
    201.

Definition internal_error (e : exn) : response :=
  mkResponse
    (jsonify [("status", JString "error"); ("message", JString (str_exn e))])
    500.

Definition not_found (m : http_method) : response :=
  mkResponse
    (jsonify [("status", JString "error");
              ("message", JString (match m with
                                   | DELETE => "刪除失敗 (找不到或無權限)"
                                   | _ => "更新失敗 (找不到或無權限)"
                                   end))])
    404.

(** The request is one the update or the delete of an item can act on:
    a DELETE, or a PUT whose body carries the three required fields. *)
Definition acts_on_item (req : Request) : Prop :=
  method req = DELETE
  ∨ (method req = PUT
     ∧ ∃ d, body req = JsonObject d
            ∧ is_Some (d !! "title") ∧ is_Some (d !! "media_type")
            ∧ is_Some (d !! "status")).

(** The store after the same request was served [n] times in a row. *)
Definition repeated (view : Env → Request → M response)
    (env : Env) (req : Request) (n : nat) (s : Store) : Store :=
  Nat.iter n (λ st, (serve view env req st).2) s.

(** The characters that [LIKE] reads as more than themselves. *)
Definition pattern_char (c : string) : bool :=
  String.eqb c "%" || String.eqb c "_" || String.eqb c "\".

(** The search string has none of them. *)
Definition plain (q : string) : bool :=
  forallb (λ c, negb (pattern_char c)) (utf8_chars q).

Definition literals (q : string) : list like_token := Literal <$> utf8_chars q.

(** The title is text that has [q] as a substring, character by character
    and up to the case of letters in the locale of the database. *)
Definition contains_ci (q : string) (title : pyval) : Prop :=
  ∃ text before after,
    title = PStr text
    ∧ lower_char <$> utf8_chars text
      = before ++ (lower_char <$> utf8_chars q) ++ after.

(** The rows the GET of [media_api] keeps for a search string [q]. *)
Definition search_hit (q : string) (r : MediaItem.t) : bool :=
  if String.eqb q EmptyString then true
  else match like_tokens false (utf8_chars ("%" +:+ q +:+ "%")) with
       | Some tokens => ilike lower_char (MediaItem.title r) tokens
       | None => false
       end.

(** The first of the required fields, in the order the handlers read them,
    that the body does not have. *)
Definition first_missing (d : gmap string pyval) : option string :=
  match d !! "title", d !! "media_type", d !! "status" with
  | None, _, _ => Some "title"
  | _, None, _ => Some "media_type"
  | _, _, None => Some "status"
  | _, _, _ => None
  end.

(** The caller has a row whose title the duplicate check of the POST takes
    for the title of the body. *)
Definition has_title (s : Store) (uid : Z) (d : gmap string pyval) : Prop :=
  ∃ t r, d !! "title" = Some t ∧ r ∈ media_items (tables s)
         ∧ sql_eq (MediaItem.title r) t = true ∧ MediaItem.user_id r = uid.



(** An exception of the database driver. *)
Definition driver_exception (e : exn) : Prop :=
  match e with
  | DbError _ | InterfaceError _ => True
  | _ => False
  end.

(** The store refuses no call. *)
Definition unrefused (env : Env) : Prop := Forall (λ f, f = None) (faults env).


(** What does not belong to [uid] is the same in both tables: the users,
    and the media rows of every other owner, in their order. *)
Definition others_kept (uid : Z) (before after : Tables) : Prop :=
  users after = users before
  ∧ filter (λ r, MediaItem.user_id r ≠ uid) (media_items after)
    = filter (λ r, MediaItem.user_id r ≠ uid) (media_items before).

(** The media rows of one owner. *)
Definition rows_of (uid : Z) (t : Tables) : list MediaItem.t :=
  filter (λ r, MediaItem.user_id r = uid) (media_items t).

(** The value of a field of a JSON object. *)
Fixpoint json_field (key : string) (fields : list (string * json)) : option json :=
  match fields with
  | [] => None
  | (k, v) :: rest => if String.eqb k key then Some v else json_field key rest
  end.

(** The rows a response carries under [data]. *)
Definition data_of (resp : response) : list json :=
  match document resp with
  | JObject fields =>
      match json_field "data" fields with
      | Some (JArray items) => items
      | _ => []
      end
  | _ => []
  end.

(** The same request with another body. *)
Definition with_body (req : Request) (b : req_json) : Request :=
  mkRequest (method req) (x_admin_key req) (bearer req) (args_q req) b.

(** Two stores that hold the same for [uid]: the same media rows of
    [uid], in the same order, and the same next [media_id]. *)
Definition same_for (uid : Z) (s1 s2 : Store) : Prop :=
  rows_of uid (tables s1) = rows_of uid (tables s2)
  ∧ media_items_media_id_seq s1 = media_items_media_id_seq s2.

(** The isolation of the caller [uid] for one view and one request.  What
    belongs to others is kept (as a whole, and owner by owner).  Every row
    in the response is a stored row of the caller.  A [user_id] put into
    the body changes nothing.  And nothing but the caller's own rows is
    read: on any store that holds the same for the caller, whatever else it
    holds, the view gives the same response and does the same to the
    caller's rows. *)
Definition isolated (view : Env → Request → M response)
    (env : Env) (req : Request) (s : Store) (uid : Z) : Prop :=
  others_kept uid (tables s) (tables (serve view env req s).2)
  ∧ (∀ B, B ≠ uid →
       rows_of B (tables (serve view env req s).2) = rows_of B (tables s))
  ∧ (∀ resp j, (serve view env req s).1 = Ok resp → j ∈ data_of resp →
       ∃ r, j = dict_row r ∧ r ∈ media_items (tables s) ∧ MediaItem.user_id r = uid)
  ∧ (∀ d v, body req = JsonObject d →
       serve view env (with_body req (JsonObject (<["user_id" := v]> d))) s
       = serve view env req s)
  ∧ (∀ s', same_for uid s s' →
       (serve view env req s').1 = (serve view env req s).1
       ∧ same_for uid (serve view env req s).2 (serve view env req s').2).

(** *** Further responses and notions *)

Definition empty_credentials : response :=
  mkResponse (jsonify [("msg", JString "帳號或密碼不能為空")]) 400.

Definition db_unreachable : response :=
  mkResponse (jsonify [("msg", JString "DB Error")]) 500.

Definition deleted : response :=
  mkResponse (jsonify [("status", JString "success"); ("message", JString "刪除成功")]) 200.

Definition updated : response :=
  mkResponse (jsonify [("status", JString "success"); ("message", JString "更新成功")]) 200.

(** The body is no JSON object: [request.json] raises, or what it returns
    has neither keys nor [get]. *)
Definition no_object (req : Request) : Prop :=
  body req = NotJson ∨ body req = JsonOther.

(** The row an UPDATE of [item_api] with the body [d] makes of [r]. *)
Definition rewritten (d : gmap string pyval) (t mt st : pyval) (r : MediaItem.t)
  : MediaItem.t :=
  MediaItem.mk (MediaItem.media_id r) (MediaItem.user_id r) t mt st
               (default PNone (d !! "progress"))
               (default PNone (d !! "rating"))
               (default PNone (d !! "comment"))
               (MediaItem.added_date r).

(** Two rows of one owner whose titles the store takes for equal. *)
Definition same_title (r1 r2 : MediaItem.t) : Prop :=
  MediaItem.user_id r1 = MediaItem.user_id r2
  ∧ sql_eq (MediaItem.title r1) (MediaItem.title r2) = true.

(** No two rows of the list are rows of one owner with equal titles. *)
Definition titles_unique (rows : list MediaItem.t) : Prop :=
  StronglySorted (λ r1 r2, ¬ same_title r1 r2) rows.

(** The search string has no backslash. *)
Definition no_escape (q : string) : bool :=
  forallb (λ c, negb (String.eqb c "\")) (utf8_chars q).

(** The tokens of a pattern without backslash. *)
Definition tokens_of (q : string) : list like_token := like_token_of <$> utf8_chars q.

(** ** Properties *)

(** *** Registration *)

Lemma finish_start env s : finish (start env s) = s.
Proof. by destruct s. Qed.

(** C6. A request to POST /api/admin/register whose [X-Admin-Key] header
    is absent or differs from the configured administrator key is answered
    403, whatever its body is (even one that is not JSON), whether or not
    the store can be reached, and the store is left as it was: no user is
    created, and no other check is made before this one. *)
Theorem admin_register_forbidden (env : Env) (req : Request) (s : Store) :
  method req = POST →
  x_admin_key req ≠ Some ADMIN_MASTER_KEY →
  serve admin_register env req s = (Ok forbidden, s).
Proof.
  intros Hm Hk. unfold serve, admin_register, route.
  rewrite Hm. rewrite decide_True by (repeat constructor).
  rewrite decide_True by done. cbn. by rewrite finish_start.
Qed.

Lemma eqb_empty_false (x : string) : x ≠ EmptyString → String.eqb x EmptyString = false.
Proof. intros H. by apply String.eqb_neq. Qed.

Lemma register_fresh (env : Env) (req : Request) (s : Store)
    (d : gmap string pyval) (u p : string) :
  method req = POST →
  x_admin_key req = Some ADMIN_MASTER_KEY →
  body req = JsonObject d →
  d !! "username" = Some (PStr u) → d !! "password" = Some (PStr p) →
  u ≠ EmptyString → p ≠ EmptyString →
  db_up env = true → faults env = [] →
  (∀ r, r ∈ users (tables s) → User.username r ≠ PStr u) →
  serve admin_register env req s
  = (Ok (created_user (PStr u) (users_user_id_seq s)),
     mkStore (mkTables (users (tables s)
                        ++ [User.mk (users_user_id_seq s) (PStr u)
                                    (hash_password (salt env) p)])
                       (media_items (tables s)))
             (users_user_id_seq s + 1) (media_items_media_id_seq s)).
Proof.
  intros Hm Hk Hb Hu Hp Hne1 Hne2 Hup Hf Hfresh.
  unfold admin_register, generate_password_hash. unfold_view. rewrite Hm, Hk, Hb, Hu, Hp, Hup, Hf.
  rewrite decide_True by (repeat constructor).
  rewrite decide_False by (intros H; by apply H).
  cbn. rewrite !eqb_empty_false by done. cbn.
  unfold insert_user. cbn.
  rewrite bool_decide_false; [done|].
  unfold username_exists. rewrite Exists_exists. intros (r & Hr & Heq).
  apply (Hfresh r Hr). destruct (User.username r); try done.
  cbn in Heq. by apply bool_decide_eq_true in Heq.
Qed.

Lemma register_taken (env : Env) (req : Request) (s : Store)
    (d : gmap string pyval) (u p : string) (r : User.t) :
  method req = POST →
  x_admin_key req = Some ADMIN_MASTER_KEY →
  body req = JsonObject d →
  d !! "username" = Some (PStr u) → d !! "password" = Some (PStr p) →
  u ≠ EmptyString → p ≠ EmptyString →
  db_up env = true → faults env = [] →
  r ∈ users (tables s) → User.username r = PStr u →
  serve admin_register env req s
  = (Ok username_taken,
     mkStore (tables s) (users_user_id_seq s + 1) (media_items_media_id_seq s))
  ∧ store_errors admin_register env req s
    = [IntegrityError "duplicate key value violates unique constraint"].
Proof.
  intros Hm Hk Hb Hu Hp Hne1 Hne2 Hup Hf Hr Hname.
  unfold admin_register, generate_password_hash. unfold_view. rewrite Hm, Hk, Hb, Hu, Hp, Hup, Hf.
  rewrite decide_True by (repeat constructor).
  rewrite decide_False by (intros H; by apply H).
  cbn. rewrite !eqb_empty_false by done. cbn.
  unfold insert_user. cbn.
  rewrite bool_decide_true; [done|].
  unfold username_exists. rewrite Exists_exists. exists r. split; [done|].
  rewrite Hname. cbn. by apply bool_decide_eq_true.
Qed.

(** C7. With the administrator key and non-empty credentials, and a store
    that can be reached and does not fail on its own, registering a user
    name that no user has yet is answered 201, and registering the same
    name again (under any password) is answered 409: the second insert is
    refused by the store, and the tables after it are those after the
    first, so the record of the first registration, with the hash of the
    first password, stands. *)
Theorem register_twice (env1 env2 : Env) (req1 req2 : Request) (s : Store)
    (d1 d2 : gmap string pyval) (u p1 p2 : string) :
  method req1 = POST → method req2 = POST →
  x_admin_key req1 = Some ADMIN_MASTER_KEY →
  x_admin_key req2 = Some ADMIN_MASTER_KEY →
  body req1 = JsonObject d1 → body req2 = JsonObject d2 →
  d1 !! "username" = Some (PStr u) → d2 !! "username" = Some (PStr u) →
  d1 !! "password" = Some (PStr p1) → d2 !! "password" = Some (PStr p2) →
  u ≠ EmptyString → p1 ≠ EmptyString → p2 ≠ EmptyString →
  db_up env1 = true → db_up env2 = true →
  faults env1 = [] → faults env2 = [] →
  (∀ r, r ∈ users (tables s) → User.username r ≠ PStr u) →
  ∃ s1 s2,
    serve admin_register env1 req1 s
      = (Ok (created_user (PStr u) (users_user_id_seq s)), s1)
    ∧ serve admin_register env2 req2 s1 = (Ok username_taken, s2)
    ∧ store_errors admin_register env2 req2 s1
      = [IntegrityError "duplicate key value violates unique constraint"]
    ∧ users (tables s1)
      = users (tables s)
        ++ [User.mk (users_user_id_seq s) (PStr u) (hash_password (salt env1) p1)]
    ∧ tables s2 = tables s1.
Proof.
  intros Hm1 Hm2 Hk1 Hk2 Hb1 Hb2 Hu1 Hu2 Hp1 Hp2 Hu Hne1 Hne2 Hup1 Hup2 Hf1 Hf2 Hfresh.
  pose (new := User.mk (users_user_id_seq s) (PStr u) (hash_password (salt env1) p1)).
  pose (s1 := mkStore (mkTables (users (tables s) ++ [new]) (media_items (tables s)))
                      (users_user_id_seq s + 1) (media_items_media_id_seq s)).
  destruct (register_taken env2 req2 s1 d2 u p2 new) as [Hserve Herrors]; try done.
  { cbn. apply elem_of_app. right. by apply list_elem_of_singleton. }
  exists s1, (mkStore (tables s1) (users_user_id_seq s1 + 1) (media_items_media_id_seq s1)).
  split; [by apply (register_fresh env1 req1 s d1 u p1)|].
  by rewrite Hserve, Herrors.
Qed.

(** *** Login *)

Lemma sql_eq_text (v : pyval) (x : string) : sql_eq v (PStr x) = true ↔ v = PStr x.
Proof.
  destruct v; cbn; try (split; [done|discriminate]).
  by rewrite bool_decide_eq_true.
Qed.



Lemma head_filter_the {A : Type} (P : A → Prop) `{!∀ x, Decision (P x)}
    (l : list A) (x : A) :
  x ∈ l → P x → (∀ y, y ∈ l → P y → y = x) → head (filter P l) = Some x.
Proof.
  induction l as [|z l IH]; intros Hx HP Huniq.
  - by apply elem_of_nil in Hx.
  - destruct (decide (P z)) as [Hz|Hz].
    + rewrite filter_cons_True by done. cbn. f_equal. apply Huniq; [left|done].
    + rewrite filter_cons_False by done. apply IH; [|done|].
      * apply elem_of_cons in Hx as [->|Hx]; [done|done].
      * intros y Hy. apply Huniq. by right.
Qed.


Lemma select_user_named (s : Store) (name : string) (user : User.t) :
  user_named s name user → select_user (PStr name) s = (inr (Some user), s).
Proof.
  intros (Hin & Hname & Huniq). unfold select_user.
  rewrite (head_filter_the _ _ user); [done|done|by apply sql_eq_text|].
  intros y Hy HPy. apply Huniq; [done|]. by apply sql_eq_text.
Qed.


(** *** The media catalogue *)

Lemma filter_none {A : Type} (P : A → Prop) `{!∀ x, Decision (P x)} (l : list A) :
  (∀ x, x ∈ l → ¬ P x) → filter P l = [].
Proof.
  intros Hno. induction l as [|x l IH]; [done|].
  rewrite filter_cons_False by (apply Hno; left).
  apply IH. intros y Hy. apply Hno. by right.
Qed.

Lemma filter_all {A : Type} (P : A → Prop) `{!∀ x, Decision (P x)} (l : list A) :
  (∀ x, x ∈ l → P x) → filter P l = l.
Proof.
  intros Hall. induction l as [|x l IH]; [done|].
  rewrite filter_cons_True by (apply Hall; left).
  f_equal. apply IH. intros y Hy. apply Hall. by right.
Qed.

Lemma head_filter_some {A : Type} (P : A → Prop) `{!∀ x, Decision (P x)}
    (l : list A) (x : A) :
  x ∈ l → P x → is_Some (head (filter P l)).
Proof.
  intros Hx HP. assert (x ∈ filter P l) as Hin by by apply list_elem_of_filter.
  destruct (filter P l); [by apply elem_of_nil in Hin|by eexists].
Qed.

Lemma store_eta (s : Store) :
  set_tables s (mkTables (users (tables s)) (media_items (tables s))) = s.
Proof. by destruct s as [[] ? ?]. Qed.

Lemma select_media_id_found (s : Store) (t : string) (uid : Z) (r : MediaItem.t) :
  r ∈ media_items (tables s) → MediaItem.title r = PStr t → MediaItem.user_id r = uid →
  ∃ id, select_media_id (PStr t) uid s = (inr (Some id), s).
Proof.
  intros Hr Ht Hu. unfold select_media_id.
  destruct (head_filter_some
              (λ r, sql_eq (MediaItem.title r) (PStr t) = true ∧ MediaItem.user_id r = uid)
              (media_items (tables s)) r) as [x Hx]; [done| |].
  - split; [by apply sql_eq_text|done].
  - rewrite Hx. by eexists.
Qed.

Lemma select_media_id_none (s : Store) (t : pyval) (uid : Z) :
  (∀ r, r ∈ media_items (tables s) →
        ¬ (sql_eq (MediaItem.title r) t = true ∧ MediaItem.user_id r = uid)) →
  select_media_id t uid s = (inr None, s).
Proof.
  intros Hno. unfold select_media_id. by rewrite filter_none.
Qed.

Lemma media_duplicate (env : Env) (req : Request) (s : Store) (uid : Z)
    (d : gmap string pyval) (t : string) (r : MediaItem.t) :
  method req = POST → authenticated req uid →
  body req = JsonObject d → d !! "title" = Some (PStr t) →
  db_up env = true → faults env = [] →
  r ∈ media_items (tables s) → MediaItem.title r = PStr t → MediaItem.user_id r = uid →
  serve media_api env req s = (Ok (duplicate_title (PStr t)), s).
Proof.
  intros Hm Hauth Hb Ht Hup Hf Hr Htitle Huser. unfold authenticated in Hauth.
  destruct (select_media_id_found s t uid r) as [id Hsel]; [done..|].
  unfold serve, media_api, route, jwt_required. rewrite Hm, Hauth.
  unfold_view. rewrite Hb, Ht, Hup, Hf.
  rewrite decide_True by (repeat constructor). cbn.
  rewrite Hsel. cbn. by destruct s.
Qed.

Lemma media_inserted (env : Env) (req : Request) (s : Store) (uid : Z)
    (d : gmap string pyval) (t : string) (mt st : pyval) :
  method req = POST → authenticated req uid →
  body req = JsonObject d →
  d !! "title" = Some (PStr t) → d !! "media_type" = Some mt → d !! "status" = Some st →
  db_up env = true → faults env = [] →
  (∀ r, r ∈ media_items (tables s) →
        ¬ (MediaItem.title r = PStr t ∧ MediaItem.user_id r = uid)) →
  serve media_api env req s
  = (Ok (created_media (media_items_media_id_seq s)),
     mkStore
       (mkTables (users (tables s))
          (media_items (tables s)
           ++ [MediaItem.mk (media_items_media_id_seq s) uid (PStr t) mt st
                 (default PNone (d !! "progress"))
                 (default PNone (d !! "rating"))
                 (default PNone (d !! "comment"))
                 (now env)]))
       (users_user_id_seq s) (media_items_media_id_seq s + 1)).
Proof.
  intros Hm Hauth Hb Ht Hmt Hst Hup Hf Hno. unfold authenticated in Hauth.
  unfold serve, media_api, route, jwt_required. rewrite Hm, Hauth.
  unfold_view. rewrite Hb, Ht, Hmt, Hst, Hup, Hf.
  rewrite decide_True by (repeat constructor). cbn.
  rewrite select_media_id_none; [done|].
  intros r Hr [Heq Hu]. apply (Hno r Hr). split; [by apply sql_eq_text|done].
Qed.

(** C3. An authenticated POST /api/media whose body carries a text
    [title], served while the store can be reached and does not fail.  If
    the caller already has an item with that title the answer is 409 and
    the store is untouched: nothing was inserted.  Otherwise (the body
    carrying [media_type] and [status] as well) one row is appended under
    the caller's [user_id] with the store's next [media_id], the insert is
    committed, and the answer is 201 with that [media_id]. *)
Theorem create_media (env : Env) (req : Request) (s : Store) (uid : Z)
    (d : gmap string pyval) (t : string) :
  method req = POST → authenticated req uid →
  body req = JsonObject d → d !! "title" = Some (PStr t) →
  db_up env = true → faults env = [] →
  let mine (r : MediaItem.t) :=
    MediaItem.title r = PStr t ∧ MediaItem.user_id r = uid in
  ((∃ r, r ∈ media_items (tables s) ∧ mine r) →
   serve media_api env req s = (Ok (duplicate_title (PStr t)), s))
  ∧ (∀ mt st,
       (∀ r, r ∈ media_items (tables s) → ¬ mine r) →
       d !! "media_type" = Some mt → d !! "status" = Some st →
       serve media_api env req s
       = (Ok (created_media (media_items_media_id_seq s)),
          mkStore
            (mkTables (users (tables s))
               (media_items (tables s)
                ++ [MediaItem.mk (media_items_media_id_seq s) uid (PStr t) mt st
                      (default PNone (d !! "progress"))
                      (default PNone (d !! "rating"))
                      (default PNone (d !! "comment"))
                      (now env)]))
            (users_user_id_seq s) (media_items_media_id_seq s + 1))).
Proof.
  intros Hm Hauth Hb Ht Hup Hf mine. split.
  - intros (r & Hr & Htitle & Huser). by apply (media_duplicate env req s uid d t r).
  - intros mt st Hno Hmt Hst. by apply media_inserted.
Qed.

Lemma fmap_fixed {A : Type} (f : A → A) (l : list A) :
  (∀ x, x ∈ l → f x = x) → f <$> l = l.
Proof.
  intros Hfix. induction l as [|x l IH]; [done|].
  cbn. rewrite Hfix by left. f_equal. apply IH. intros y Hy. apply Hfix. by right.
Qed.

Lemma delete_media_none (s : Store) (id uid : Z) :
  (∀ r, r ∈ media_items (tables s) → ¬ targeted id uid r) →
  delete_media id uid s = (inr 0%nat, s).
Proof.
  intros Hno. unfold delete_media.
  rewrite filter_none by done. rewrite filter_all by done.
  by rewrite store_eta.
Qed.

Lemma update_media_none (s : Store) (id uid : Z) (t mt st pr ra co : pyval) :
  (∀ r, r ∈ media_items (tables s) → ¬ targeted id uid r) →
  update_media t mt st pr ra co id uid s = (inr 0%nat, s).
Proof.
  intros Hno. unfold update_media.
  rewrite filter_none by done.
  rewrite fmap_fixed; [by rewrite store_eta|].
  intros r Hr. rewrite decide_False; [done|]. by apply Hno.
Qed.

Lemma item_absent (env : Env) (req : Request) (s : Store) (id uid : Z) :
  authenticated req uid → acts_on_item req →
  db_up env = true → faults env = [] →
  (∀ r, r ∈ media_items (tables s) → ¬ targeted id uid r) →
  serve (item_api id) env req s = (Ok (not_found (method req)), s).
Proof.
  intros Hauth Hact Hup Hf Hno. unfold authenticated in Hauth.
  destruct Hact as [Hm|(Hm & d & Hb & [t Ht] & [mt Hmt] & [st Hst])].
  - unfold serve, item_api, route, jwt_required. rewrite Hm, Hauth.
    unfold_view. rewrite Hup, Hf.
    rewrite decide_True by (repeat constructor). cbn.
    rewrite delete_media_none by done. cbn. by destruct s.
  - unfold serve, item_api, route, jwt_required. rewrite Hm, Hauth.
    unfold_view. rewrite Hb, Ht, Hmt, Hst, Hup, Hf.
    rewrite decide_True by (repeat constructor). cbn.
    rewrite update_media_none by done. cbn. by destruct s.
Qed.

(** C4. An authenticated PUT (with its required fields) or DELETE of
    /api/media/{id}, served while the store can be reached and does not
    fail.  The statement selects by [media_id] and by the caller's
    [user_id]; when no row has both, whether because no item has that
    [media_id] or because the item belongs to someone else, the answer is
    the one 404 of the method and the store is left as it was.  Hence
    repeating the request any number of times gives the same 404 each
    time and never a success. *)
Theorem item_not_found_stable (env : Env) (req : Request) (s : Store)
    (id uid : Z) (n : nat) :
  authenticated req uid → acts_on_item req →
  db_up env = true → faults env = [] →
  (∀ r, r ∈ media_items (tables s) →
        ¬ (MediaItem.media_id r = id ∧ MediaItem.user_id r = uid)) →
  serve (item_api id) env req (repeated (item_api id) env req n s)
  = (Ok (not_found (method req)), s).
Proof.
  intros Hauth Hact Hup Hf Hno.
  assert (repeated (item_api id) env req n s = s) as ->.
  { induction n as [|n IH]; [done|].
    change (repeated (item_api id) env req (S n) s)
      with (serve (item_api id) env req (repeated (item_api id) env req n s)).2.
    rewrite IH. by rewrite (item_absent env req s id uid). }
  by apply (item_absent env req s id uid).
Qed.

(** *** Listing and searching *)

Lemma chars_from_percent (current : option string) (bytes : string) :
  chars_from current (bytes +:+ "%") = chars_from current bytes ++ ["%"].
Proof.
  revert current. induction bytes as [|b bytes IH]; intros current.
  - by destruct current.
  - change (String b bytes +:+ "%") with (String b (bytes +:+ "%")). cbn [chars_from].
    destruct current as [c|]; destruct (continuation b), (opening b);
      by rewrite ?IH.
Qed.

Lemma utf8_chars_wrapped (q : string) :
  utf8_chars ("%" +:+ q +:+ "%") = "%" :: utf8_chars q ++ ["%"].
Proof.
  unfold utf8_chars.
  change (chars_from None ("%" +:+ q +:+ "%")) with ("%" :: chars_from None (q +:+ "%")).
  by rewrite chars_from_percent.
Qed.

Lemma like_tokens_closed (pattern : list string) (escaped : bool) :
  is_Some (like_tokens escaped (pattern ++ ["%"])).
Proof.
  revert escaped. induction pattern as [|c pattern IH]; intros escaped.
  - destruct escaped; by eexists.
  - cbn [app like_tokens]. destruct escaped.
    + destruct (IH false) as [ts ->]. by eexists.
    + destruct (String.eqb c "\"); [apply IH|].
      destruct (IH false) as [ts ->]. by eexists.
Qed.

Lemma like_tokens_wrapped (q : string) :
  ∃ tokens, like_tokens false (utf8_chars ("%" +:+ q +:+ "%")) = Some (AnyRun :: tokens).
Proof.
  rewrite utf8_chars_wrapped.
  destruct (like_tokens_closed (utf8_chars q) false) as [ts Hts].
  exists ts. cbn [like_tokens]. by rewrite Hts.
Qed.

Lemma like_tokens_literals (pattern : list string) :
  forallb (λ c, negb (pattern_char c)) pattern = true →
  like_tokens false (pattern ++ ["%"]) = Some ((Literal <$> pattern) ++ [AnyRun]).
Proof.
  induction pattern as [|c pattern IH]; [done|]. intros Hplain.
  cbn in Hplain. apply andb_prop in Hplain as [Hc Hrest].
  unfold pattern_char in Hc. apply negb_true_iff in Hc.
  apply orb_false_elim in Hc as [Hc Hbs]. apply orb_false_elim in Hc as [Hpc Hus].
  cbn [app like_tokens]. rewrite Hbs, (IH Hrest). unfold like_token_of.
  by rewrite Hpc, Hus.
Qed.

Lemma like_tokens_plain (q : string) :
  plain q = true →
  like_tokens false (utf8_chars ("%" +:+ q +:+ "%"))
  = Some (AnyRun :: literals q ++ [AnyRun]).
Proof.
  intros Hplain. rewrite utf8_chars_wrapped. cbn [like_tokens].
  by rewrite like_tokens_literals.
Qed.

Lemma append_empty (b : string) : EmptyString +:+ b = b.
Proof. done. Qed.

Lemma append_cons (c : ascii) (a b : string) : String c a +:+ b = String c (a +:+ b).
Proof. done. Qed.

Lemma ilike_run (fold : string → string) (tokens : list like_token) (text : list string) :
  ilike_tokens fold (AnyRun :: tokens) text = true
  ↔ ∃ before rest, text = before ++ rest ∧ ilike_tokens fold tokens rest = true.
Proof.
  induction text as [|c text IH].
  - cbn. rewrite orb_false_r. split.
    + intros H. exists [], []. by split.
    + intros (before & rest & Heq & H). symmetry in Heq.
      apply app_eq_nil in Heq as [_ ->]. done.
  - change (ilike_tokens fold (AnyRun :: tokens) (c :: text))
      with (ilike_tokens fold tokens (c :: text)
            || ilike_tokens fold (AnyRun :: tokens) text).
    rewrite orb_true_iff, IH. split.
    + intros [H|(before & rest & -> & H)].
      * exists [], (c :: text). by split.
      * exists (c :: before), rest. by split.
    + intros (before & rest & Heq & H). destruct before as [|d before].
      * left. cbn in Heq. by subst.
      * right. cbn in Heq. injection Heq as -> ->. exists before, rest. by split.
Qed.

Lemma ilike_literals (fold : string → string) (pattern text : list string) :
  ilike_tokens fold ((Literal <$> pattern) ++ [AnyRun]) text = true
  ↔ ∃ after, fold <$> text = (fold <$> pattern) ++ after.
Proof.
  revert text. induction pattern as [|c pattern IH]; intros text.
  - change ((Literal <$> []) ++ [AnyRun]) with [AnyRun]. rewrite ilike_run. split.
    + intros _. by exists (fold <$> text).
    + intros _. exists text, []. by rewrite app_nil_r.
  - destruct text as [|d text].
    + cbn. split; [done|]. by intros [after H].
    + cbn. rewrite andb_true_iff, IH, String.eqb_eq. split.
      * intros [Hc [after ->]]. exists after. by rewrite Hc.
      * intros [after H]. injection H as Hc H. split; [done|by exists after].
Qed.

Lemma search_hit_plain (q : string) (r : MediaItem.t) :
  plain q = true → q ≠ EmptyString →
  search_hit q r = true ↔ contains_ci q (MediaItem.title r).
Proof.
  intros Hplain Hq. unfold search_hit, contains_ci.
  rewrite eqb_empty_false by done. rewrite like_tokens_plain by done.
  destruct (MediaItem.title r) as [| | |text]; cbn -[ilike_tokens];
    try (split; [done|by intros (? & ? & ? & ? & ?)]).
  rewrite ilike_run. unfold literals. split.
  - intros (before & rest & Htext & H). apply ilike_literals in H as [after H].
    exists text, (lower_char <$> before), after.
    split; [done|]. by rewrite Htext, fmap_app, H.
  - intros (text' & before & after & Heq & H). injection Heq as <-.
    apply fmap_app_inv in H as (t1 & t2 & -> & H2 & ->).
    exists t1, t2. split; [done|]. apply ilike_literals. by exists after.
Qed.

#[local] Instance newer_first_total : Total newer_first.
Proof. intros a b. unfold newer_first. lia. Qed.

#[local] Instance newer_first_trans : Transitive newer_first.
Proof. intros a b c. unfold newer_first. lia. Qed.

Lemma select_media_rows (s : Store) (uid : Z) (q : string) :
  ∃ items,
    select_media lower_char uid (if negb (String.eqb q EmptyString)
                      then Some ("%" +:+ q +:+ "%") else None) s
    = (inr items, s)
    ∧ StronglySorted newer_first items
    ∧ items ≡ₚ filter (λ r, MediaItem.user_id r = uid ∧ search_hit q r = true)
                      (media_items (tables s)).
Proof.
  unfold select_media, search_hit.
  destruct (String.eqb q EmptyString) eqn:Hq; cbn [negb].
  - eexists. split; [done|]. split; [apply StronglySorted_merge_sort; apply _|].
    rewrite merge_sort_Permutation.
    apply reflexive_eq, list_filter_iff. intros r.
    split; [intros ?; by split|by intros [? _]].
  - destruct (like_tokens_wrapped q) as [tokens ->].
    eexists. split; [done|]. split; [apply StronglySorted_merge_sort; apply _|].
    rewrite merge_sort_Permutation, list_filter_filter.
    apply reflexive_eq, list_filter_iff. intros r. split; by intros [? ?].
Qed.

Lemma media_listed (env : Env) (req : Request) (s : Store) (uid : Z) :
  method req = GET → authenticated req uid →
  db_up env = true → faults env = [] →
  ∃ items,
    serve media_api env req s = (Ok (listing items), s)
    ∧ StronglySorted newer_first items
    ∧ items ≡ₚ filter (λ r, search_hit (default EmptyString (args_q req)) r = true)
                      (rows_of uid (tables s)).
Proof.
  intros Hm Hauth Hup Hf. unfold authenticated in Hauth.
  destruct (select_media_rows s uid (default EmptyString (args_q req)))
    as (items & Hsel & Hsorted & Hperm).
  exists items. split; [|split; [done|]].
  - unfold serve, media_api, route, jwt_required. rewrite Hm, Hauth.
    unfold_view. rewrite Hup, Hf.
    rewrite decide_True by (repeat constructor). cbn.
    rewrite Hsel. cbn. by destruct s.
  - rewrite Hperm. unfold rows_of. rewrite list_filter_filter.
    apply reflexive_eq, list_filter_iff. intros r. split; by intros [? ?].
Qed.

(** C2, as amended.  An authenticated GET /api/media, served while the store
    can be reached and does not fail, is answered 200 with a list that
    holds exactly the caller's rows that the search keeps (each as often as
    the table has it), newest [added_date] first.  With [q] absent or empty
    the search keeps every row of the caller.  Otherwise it keeps the rows
    whose title matches the pattern [%q%] of [ILIKE]; when [q] has none of
    the characters [%], [_] and backslash, these are the rows whose title
    contains [q] as a substring up to the case of letters.  When no row is
    kept the answer is still 200, with an empty list. *)
Theorem list_media (env : Env) (req : Request) (s : Store) (uid : Z) :
  method req = GET → authenticated req uid →
  db_up env = true → faults env = [] →
  let q := default EmptyString (args_q req) in
  let mine := rows_of uid (tables s) in
  ∃ items,
    serve media_api env req s = (Ok (listing items), s)
    ∧ StronglySorted (λ a b, MediaItem.added_date b ≤ MediaItem.added_date a) items
    ∧ items ≡ₚ filter (λ r, search_hit q r = true) mine
    ∧ (q = EmptyString → items ≡ₚ mine)
    ∧ (plain q = true → q ≠ EmptyString →
       ∀ r, r ∈ items ↔ r ∈ mine ∧ contains_ci q (MediaItem.title r))
    ∧ (filter (λ r, search_hit q r = true) mine = [] → items = []).
Proof.
  intros Hm Hauth Hup Hf q mine.
  destruct (media_listed env req s uid Hm Hauth Hup Hf) as (items & Hserve & Hsorted & Hperm).
  fold q mine in Hperm.
  exists items. split; [done|split; [done|split; [done|split; [|split]]]].
  - intros Hq. rewrite Hperm. rewrite filter_all; [done|].
    intros r _. by rewrite Hq.
  - intros Hplain Hq r. rewrite Hperm. rewrite list_elem_of_filter.
    rewrite search_hit_plain by done. split; by intros [? ?].
  - intros Hnil. rewrite Hnil in Hperm. by apply Permutation_nil_r in Hperm.
Qed.

(** C9. An authenticated POST /api/media with a text [title], a text
    [media_type] and a text [status], with [progress] and [rating] each an
    integer, null or left out, and [comment] a text, null or left out, for
    a title the caller does not have yet, followed by an authenticated
    GET /api/media of the same caller without a search, both served while
    the store can be reached and does not fail.  The POST is answered 201
    with the new [media_id].  The GET is answered 200, and among the
    objects of its [data] is the one with that [media_id], the caller's
    [user_id], the [added_date] the store gave the row, and the fields of
    the POST as they were sent ([progress] under the column name
    [current_progress]; an optional field that was left out reads back as
    null). *)
Theorem create_then_list (env1 env2 : Env) (post get : Request) (s : Store)
    (uid : Z) (d : gmap string pyval) (t mt st : string)
    (progress rating : option Z) (comment : option string) :
  method post = POST → method get = GET →
  authenticated post uid → authenticated get uid →
  body post = JsonObject d →
  d !! "title" = Some (PStr t) →
  d !! "media_type" = Some (PStr mt) → d !! "status" = Some (PStr st) →
  default PNone (d !! "progress") = from_option PInt PNone progress →
  default PNone (d !! "rating") = from_option PInt PNone rating →
  default PNone (d !! "comment") = from_option PStr PNone comment →
  (∀ r, r ∈ media_items (tables s) →
        ¬ (MediaItem.title r = PStr t ∧ MediaItem.user_id r = uid)) →
  args_q get = None →
  db_up env1 = true → faults env1 = [] → db_up env2 = true → faults env2 = [] →
  ∃ s1 resp,
    serve media_api env1 post s
    = (Ok (mkResponse
             (JObject [("status", JString "success");
                       ("message", JString "新增成功");
                       ("media_id", JNum (media_items_media_id_seq s))])
             201), s1)
    ∧ serve media_api env2 get s1 = (Ok resp, s1)
    ∧ status resp = 200
    ∧ JObject [("media_id", JNum (media_items_media_id_seq s));
               ("user_id", JNum uid);
               ("title", JString t);
               ("media_type", JString mt);
               ("status", JString st);
               ("current_progress", from_option JNum JNull progress);
               ("rating", from_option JNum JNull rating);
               ("comment", from_option JString JNull comment);
               ("added_date", JNum (now env1))]
      ∈ data_of resp.
Proof.
  intros Hmp Hmg Hap Hag Hb Ht Hmt Hst Hprogress Hrating Hcomment Hfresh Hq
    Hup1 Hf1 Hup2 Hf2.
  pose proof (media_inserted env1 post s uid d t (PStr mt) (PStr st)
                Hmp Hap Hb Ht Hmt Hst Hup1 Hf1 Hfresh) as Hcreate.
  rewrite Hprogress, Hrating, Hcomment in Hcreate.
  match type of Hcreate with _ = (_, ?after) => set (s1 := after) in * end.
  destruct (media_listed env2 get s1 uid Hmg Hag Hup2 Hf2)
    as (items & Hlist & _ & Hperm).
  exists s1, (listing items). split; [exact Hcreate|]. split; [exact Hlist|].
  split; [done|].
  change (data_of (listing items)) with (dict_row <$> items).
  apply list_elem_of_fmap.
  exists (MediaItem.mk (media_items_media_id_seq s) uid (PStr t) (PStr mt) (PStr st)
            (from_option PInt PNone progress) (from_option PInt PNone rating)
            (from_option PStr PNone comment) (now env1)).
  split; [by destruct progress, rating, comment|].
  rewrite Hperm, Hq. apply list_elem_of_filter. split; [done|].
  apply list_elem_of_filter. split; [done|].
  cbn. apply elem_of_app. right. by apply list_elem_of_singleton.
Qed.

(** *** Bodies that leave out a required field *)

Lemma select_media_id_answer (s : Store) (t : pyval) (uid : Z) :
  ∃ found, select_media_id t uid s = (inr found, s)
           ∧ (is_Some found →
              ∃ r, r ∈ media_items (tables s)
                   ∧ sql_eq (MediaItem.title r) t = true ∧ MediaItem.user_id r = uid).
Proof.
  unfold select_media_id. eexists. split; [done|].
  intros [id Hid]. apply fmap_Some in Hid as (r & Hr & _).
  apply head_Some_elem_of, list_elem_of_filter in Hr as [[? ?] ?]. by exists r.
Qed.

(** C10, as amended.  An authenticated PUT /api/media/{id} whose JSON
    object leaves out [title], [media_type] or [status] is answered 500 and
    leaves the store as it was; when the store can be reached the message is
    that of the [KeyError] for the first field left out.  An authenticated
    POST /api/media with such a body leaves the store as it was too.  When
    it is answered, the answer is 500 unless the body has a [title] that the
    caller already has: the duplicate check comes before the other fields
    are read, and answers 409.  It is answered whenever the store refuses no
    call; otherwise the rollback of the handler may raise (on a connection
    lost during the duplicate check, or refused by the store), and then an
    exception of the driver leaves the view. *)
Theorem missing_required_field (env : Env) (req : Request) (s : Store)
    (id uid : Z) (d : gmap string pyval) (k : string) :
  authenticated req uid → body req = JsonObject d →
  first_missing d = Some k →
  (method req = PUT →
   ∃ resp, serve (item_api id) env req s = (Ok resp, s)
           ∧ status resp = 500
           ∧ (db_up env = true → resp = internal_error (KeyError k)))
  ∧ (method req = POST →
     ∃ r, serve media_api env req s = (r, s)
          ∧ match r with
            | Ok resp =>
                (status resp = 500 ∨ (status resp = 409 ∧ has_title s uid d))
                ∧ (¬ has_title s uid d → status resp = 500)
            | Raise e => driver_exception e ∧ ¬ unrefused env
            end).
Proof.
  intros Hauth Hb Hmiss. unfold authenticated in Hauth. split; intros Hm.
  - unfold serve, item_api, route, jwt_required. rewrite Hm, Hauth.
    unfold_view. rewrite Hb. rewrite decide_True by (repeat constructor).
    unfold first_missing in Hmiss.
    destruct (db_up env); cbn; [|eexists; split; [by destruct s|done]].
    destruct (d !! "title"), (d !! "media_type"), (d !! "status");
      simplify_eq; cbn; eexists; (split; [by rewrite ?store_eta; destruct s|done]).
  - unfold serve, media_api, route, jwt_required, unrefused. rewrite Hm, Hauth.
    unfold_view. rewrite Hb. rewrite decide_True by (repeat constructor).
    destruct (db_up env); cbn;
      [|eexists; (split; [by destruct s|]); cbn; split; [by left|done]].
    destruct (d !! "title") as [t|] eqn:Ht; cbn;
      [|eexists; (split; [by destruct s|]); cbn; split; [by left|done]].
    destruct (select_media_id_answer s t uid) as (found & Hsel & Hfound).
    assert (is_Some found → has_title s uid d) as Hhas.
    { intros Hsome. destruct (Hfound Hsome) as (r & ? & ? & ?).
      exists t, r. by rewrite Ht. }
    unfold first_missing in Hmiss. rewrite Ht in Hmiss.
    destruct (faults env) as [|[e|] [|[e'|] plan]]; cbn; rewrite ?Hsel; cbn;
      try (destruct (loses_connection e); cbn);
      try (destruct found as [mid|]; cbn);
      try (destruct (d !! "media_type"), (d !! "status"); simplify_eq; cbn);
      eexists; (split; [by destruct s|]); cbn;
      try (split; [done|]; intros HF; by repeat (apply Forall_cons in HF as [? HF]));
      try (split; [by eauto|done]).
    all: split; [right; split; [done|by apply Hhas]|].
    all: intros Hno; destruct Hno; by apply Hhas.
Qed.
(** *** Failures of the store *)

(* The runs of a view by what the store answers to its successive calls,
   for a view of at most three calls and a rollback. *)
Ltac by_faults env :=
  destruct (faults env) as [|[?e1|] [|[?e2|] [|[?e3|] [|[?e4|] ?plan]]]]; cbn.

Ltac by_connection :=
  repeat match goal with
         | |- context [loses_connection ?e] =>
             is_var e; destruct (loses_connection e) eqn:?; cbn
         end.







(** *** Tenant isolation *)

Lemma others_kept_rows_of (A B : Z) (t t' : Tables) :
  others_kept A t t' → B ≠ A → rows_of B t' = rows_of B t.
Proof.
  intros [_ Hrows] HB. unfold rows_of.
  assert (∀ l : list MediaItem.t, filter (λ r, MediaItem.user_id r = B) l
               = filter (λ r, MediaItem.user_id r = B)
                   (filter (λ r, MediaItem.user_id r ≠ A) l)) as Hnarrow.
  { intros l. rewrite list_filter_filter. apply list_filter_iff.
    intros r. split; [|by intros [? _]]. intros Hr. split; [done|]. by rewrite Hr. }
  by rewrite (Hnarrow (media_items t')), (Hnarrow (media_items t)), Hrows.
Qed.

Lemma others_kept_insert (uid : Z) (us : list User.t) (ms : list MediaItem.t)
    (r : MediaItem.t) :
  MediaItem.user_id r = uid →
  others_kept uid (mkTables us ms) (mkTables us (ms ++ [r])).
Proof.
  intros Hr. split; [done|]. cbn. rewrite filter_app.
  rewrite (filter_none _ [r]); [by rewrite app_nil_r|].
  intros x Hx%list_elem_of_singleton Hne. subst x. by apply Hne.
Qed.

Lemma others_kept_delete (id uid : Z) (us : list User.t) (ms : list MediaItem.t) :
  others_kept uid (mkTables us ms)
    (mkTables us (filter (λ r, ¬ targeted id uid r) ms)).
Proof.
  split; [done|]. cbn. rewrite list_filter_filter.
  apply list_filter_iff. intros r. unfold targeted. split.
  - by intros [? _].
  - intros Hne. split; [done|]. by intros [_ ?].
Qed.

Lemma others_kept_update (id uid : Z) (us : list User.t) (ms : list MediaItem.t)
    (f : MediaItem.t → MediaItem.t) :
  (∀ r, MediaItem.user_id (f r) = MediaItem.user_id r) →
  others_kept uid (mkTables us ms)
    (mkTables us ((λ r, if decide (targeted id uid r) then f r else r) <$> ms)).
Proof.
  intros Hf. split; [done|]. cbn. induction ms as [|r ms IH]; [done|].
  rewrite fmap_cons, !filter_cons, IH.
  destruct (decide (targeted id uid r)) as [[_ Hu]|Hno]; [|done].
  rewrite !decide_False; [done|by intros ?|rewrite Hf; by intros ?].
Qed.

Lemma media_api_others_kept (env : Env) (req : Request) (s : Store) (uid : Z) :
  authenticated req uid →
  others_kept uid (tables s) (tables (serve media_api env req s).2).
Proof.
  intros Hauth. unfold authenticated in Hauth.
  unfold serve, media_api, route, jwt_required.
  destruct (decide (method req ∈ [GET; POST])) as [Hm|Hm]; [|done].
  rewrite Hauth. unfold_view. destruct (db_up env); cbn; [|done].
  destruct (method req) eqn:Hmeth; cbn.
  - destruct (select_media_rows s uid (default EmptyString (args_q req)))
      as (items & Hsel & _).
    by_faults env; rewrite ?Hsel; cbn; by_connection; by cbn.
  - destruct (body req) as [| |d]; cbn; try done.
    destruct (d !! "title") as [t|]; cbn; [|done].
    destruct (select_media_id_answer s t uid) as (found & Hsel & _).
    unfold insert_media. destruct s as [[us ms] useq mseq].
    by_faults env; rewrite ?Hsel; cbn; by_connection;
      try done;
      destruct found; cbn; try done;
      destruct (d !! "media_type"); cbn; try done;
      destruct (d !! "status"); cbn; by_connection; try done;
      by apply others_kept_insert.
  - absurd_method Hm.
  - absurd_method Hm.
Qed.

Lemma media_api_lists_own (env : Env) (req : Request) (s : Store) (uid : Z)
    (resp : response) (j : json) :
  authenticated req uid →
  (serve media_api env req s).1 = Ok resp → j ∈ data_of resp →
  ∃ r, j = dict_row r ∧ r ∈ media_items (tables s) ∧ MediaItem.user_id r = uid.
Proof.
  intros Hauth. unfold authenticated in Hauth.
  unfold serve, media_api, route, jwt_required.
  destruct (decide (method req ∈ [GET; POST])) as [Hm|Hm]; [|done].
  rewrite Hauth. unfold_view.
  destruct (db_up env); cbn; [|by intros [= <-] ?%elem_of_nil].
  destruct (method req) eqn:Hmeth; cbn.
  - destruct (select_media_rows s uid (default EmptyString (args_q req)))
      as (items & Hsel & _ & Hperm).
    by_faults env; rewrite ?Hsel; cbn; by_connection;
      try done;
      try (by intros [= <-] ?%elem_of_nil);
      intros [= <-]; cbn; intros (r & -> & Hr)%list_elem_of_fmap;
      rewrite Hperm in Hr; apply list_elem_of_filter in Hr as [[? _] ?];
      by exists r.
  - destruct (body req) as [| |d]; cbn; try by intros [= <-] ?%elem_of_nil.
    destruct (d !! "title") as [t|]; cbn; [|by intros [= <-] ?%elem_of_nil].
    destruct (select_media_id_answer s t uid) as (found & Hsel & _).
    unfold insert_media.
    by_faults env; rewrite ?Hsel; cbn; by_connection;
      try done;
      try (by intros [= <-] ?%elem_of_nil);
      destruct found; cbn; try (by intros [= <-] ?%elem_of_nil);
      destruct (d !! "media_type"); cbn; try (by intros [= <-] ?%elem_of_nil);
      destruct (d !! "status"); cbn; by_connection;
      try done; by intros [= <-] ?%elem_of_nil.
  - absurd_method Hm.
  - absurd_method Hm.
Qed.

Lemma media_api_ignores_user_id (env : Env) (req : Request) (s : Store)
    (d : gmap string pyval) (v : pyval) :
  body req = JsonObject d →
  serve media_api env (with_body req (JsonObject (<["user_id" := v]> d))) s
  = serve media_api env req s.
Proof.
  intros Hb. unfold serve, media_api, route, jwt_required, with_body. cbn.
  destruct (decide (method req ∈ [GET; POST])) as [Hm|Hm]; [|done].
  destruct (bearer req ≫= decode_token) as [uid|]; [|done].
  unfold_view. cbn. rewrite Hb. by rewrite !lookup_insert_ne by done.
Qed.

Lemma item_api_others_kept (env : Env) (req : Request) (s : Store) (id uid : Z) :
  authenticated req uid →
  others_kept uid (tables s) (tables (serve (item_api id) env req s).2).
Proof.
  intros Hauth. unfold authenticated in Hauth.
  unfold serve, item_api, route, jwt_required.
  destruct (decide (method req ∈ [DELETE; PUT])) as [Hm|Hm]; [|done].
  rewrite Hauth. unfold_view. destruct (db_up env); cbn; [|done].
  destruct s as [[us ms] useq mseq].
  destruct (method req) eqn:Hmeth; cbn.
  - absurd_method Hm.
  - absurd_method Hm.
  - destruct (body req) as [| |d]; cbn; try done.
    destruct (d !! "title") as [t|]; cbn; [|done].
    destruct (d !! "media_type") as [mt|]; cbn; [|done].
    destruct (d !! "status") as [st|]; cbn; [|done].
    unfold update_media.
    by_faults env; by_connection; try done;
      try case_bool_decide; cbn; try done; by apply others_kept_update.
  - unfold delete_media.
    by_faults env; by_connection; try done;
      try case_bool_decide; cbn; try done; by apply others_kept_delete.
Qed.

Lemma item_api_lists_nothing (env : Env) (req : Request) (s : Store) (id : Z)
    (resp : response) (j : json) :
  (serve (item_api id) env req s).1 = Ok resp → j ∈ data_of resp → False.
Proof.
  unfold serve, item_api, route, jwt_required.
  destruct (decide (method req ∈ [DELETE; PUT])) as [Hm|Hm]; [|done].
  destruct (bearer req ≫= decode_token) as [uid|]; [|done].
  unfold_view. destruct (db_up env); cbn; [|by intros [= <-] ?%elem_of_nil].
  destruct (method req) eqn:Hmeth; cbn.
  - absurd_method Hm.
  - absurd_method Hm.
  - destruct (body req) as [| |d]; cbn; try by intros [= <-] ?%elem_of_nil.
    destruct (d !! "title") as [t|]; cbn; [|by intros [= <-] ?%elem_of_nil].
    destruct (d !! "media_type") as [mt|]; cbn; [|by intros [= <-] ?%elem_of_nil].
    destruct (d !! "status") as [st|]; cbn; [|by intros [= <-] ?%elem_of_nil].
    unfold update_media.
    by_faults env; by_connection; try done;
      try (by intros [= <-] ?%elem_of_nil);
      case_bool_decide; cbn; by intros [= <-] ?%elem_of_nil.
  - unfold delete_media.
    by_faults env; by_connection; try done;
      try (by intros [= <-] ?%elem_of_nil);
      case_bool_decide; cbn; by intros [= <-] ?%elem_of_nil.
Qed.

Lemma item_api_ignores_user_id (env : Env) (req : Request) (s : Store) (id : Z)
    (d : gmap string pyval) (v : pyval) :
  body req = JsonObject d →
  serve (item_api id) env (with_body req (JsonObject (<["user_id" := v]> d))) s
  = serve (item_api id) env req s.
Proof.
  intros Hb. unfold serve, item_api, route, jwt_required, with_body. cbn.
  destruct (decide (method req ∈ [DELETE; PUT])) as [Hm|Hm]; [|done].
  destruct (bearer req ≫= decode_token) as [uid|]; [|done].
  unfold_view. cbn. rewrite Hb. by rewrite !lookup_insert_ne by done.
Qed.

Lemma targeted_own (id uid : Z) (ms : list MediaItem.t) :
  filter (targeted id uid) ms
  = filter (λ r, MediaItem.media_id r = id) (filter (λ r, MediaItem.user_id r = uid) ms).
Proof. rewrite list_filter_filter. by apply list_filter_iff. Qed.

Lemma delete_own (id uid : Z) (ms : list MediaItem.t) :
  filter (λ r, MediaItem.user_id r = uid) (filter (λ r, ¬ targeted id uid r) ms)
  = filter (λ r, MediaItem.media_id r ≠ id) (filter (λ r, MediaItem.user_id r = uid) ms).
Proof.
  rewrite !list_filter_filter. apply list_filter_iff. intros r. unfold targeted.
  split.
  - intros [Hu Hno]. split; [|done]. intros Hi. by apply Hno.
  - intros [Hi Hu]. split; [done|]. by intros [? _].
Qed.

Lemma update_own (id uid : Z) (f : MediaItem.t → MediaItem.t) (ms : list MediaItem.t) :
  (∀ r, MediaItem.user_id (f r) = MediaItem.user_id r) →
  filter (λ r, MediaItem.user_id r = uid)
         ((λ r, if decide (targeted id uid r) then f r else r) <$> ms)
  = (λ r, if decide (MediaItem.media_id r = id) then f r else r)
    <$> filter (λ r, MediaItem.user_id r = uid) ms.
Proof.
  intros Hf. induction ms as [|r ms IH]; [done|].
  rewrite fmap_cons, !filter_cons, IH. unfold targeted.
  destruct (decide (MediaItem.media_id r = id ∧ MediaItem.user_id r = uid))
    as [[Hi Hu]|Hno].
  - rewrite decide_True by by rewrite Hf. rewrite decide_True by done.
    rewrite fmap_cons. by rewrite decide_True.
  - destruct (decide (MediaItem.user_id r = uid)) as [Hu|Hu]; [|done].
    rewrite fmap_cons. rewrite decide_False; [done|]. intros Hi. by apply Hno.
Qed.

Lemma select_media_own (fold : string → string) (uid : Z) (pattern : option string)
    (s1 s2 : Store) :
  rows_of uid (tables s1) = rows_of uid (tables s2) →
  (select_media fold uid pattern s1).1 = (select_media fold uid pattern s2).1.
Proof.
  unfold select_media, rows_of. intros ->.
  destruct pattern as [p|]; [|done]. by destruct (like_tokens false (utf8_chars p)).
Qed.

Lemma select_media_id_own (t : pyval) (uid : Z) (s1 s2 : Store) :
  rows_of uid (tables s1) = rows_of uid (tables s2) →
  (select_media_id t uid s1).1 = (select_media_id t uid s2).1.
Proof.
  unfold select_media_id, rows_of. intros Hrows.
  assert (∀ ms : list MediaItem.t,
            filter (λ r, sql_eq (MediaItem.title r) t = true
                             ∧ MediaItem.user_id r = uid) ms
                = filter (λ r, sql_eq (MediaItem.title r) t = true)
                         (filter (λ r, MediaItem.user_id r = uid) ms)) as Hown.
  { intros ms. by rewrite list_filter_filter. }
  by rewrite !Hown, Hrows.
Qed.

(* The end of a proof that two runs agree for the caller. *)
Ltac settle_same_for Hrows :=
  cbn; split; [done|]; split; cbn; rewrite ?filter_app, ?Hrows; done.

Lemma media_api_own_rows (env : Env) (req : Request) (s s' : Store) (uid : Z) :
  authenticated req uid → same_for uid s s' →
  (serve media_api env req s').1 = (serve media_api env req s).1
  ∧ same_for uid (serve media_api env req s).2 (serve media_api env req s').2.
Proof.
  intros Hauth [Hrows Hseq]. unfold authenticated in Hauth.
  unfold serve, media_api, route, jwt_required.
  destruct (decide (method req ∈ [GET; POST])) as [Hm|Hm]; [|by split].
  rewrite Hauth. unfold_view. destruct (db_up env); cbn; [|by split].
  destruct (method req) eqn:Hmeth; cbn.
  - destruct (select_media_rows s uid (default EmptyString (args_q req)))
      as (items & Hsel & _).
    destruct (select_media_rows s' uid (default EmptyString (args_q req)))
      as (items' & Hsel' & _).
    pose proof (select_media_own lower_char uid
                  (if negb (String.eqb (default EmptyString (args_q req)) EmptyString)
                   then Some ("%" +:+ default EmptyString (args_q req) +:+ "%")
                   else None) s s' Hrows) as Hsame.
    rewrite Hsel, Hsel' in Hsame. injection Hsame as <-.
    unfold same_for, rows_of in *.
    destruct s as [[us ms] useq mseq], s' as [[us' ms'] useq' mseq']. cbn in Hrows, Hseq.
    by_faults env; rewrite ?Hsel, ?Hsel'; cbn; by_connection; settle_same_for Hrows.
  - destruct (body req) as [| |d]; cbn; try by split.
    destruct (d !! "title") as [t|]; cbn; [|by split].
    destruct (select_media_id_answer s t uid) as (found & Hsel & _).
    destruct (select_media_id_answer s' t uid) as (found' & Hsel' & _).
    pose proof (select_media_id_own t uid s s' Hrows) as Hsame.
    rewrite Hsel, Hsel' in Hsame. injection Hsame as <-.
    unfold insert_media, same_for, rows_of in *.
    destruct s as [[us ms] useq mseq], s' as [[us' ms'] useq' mseq'].
    cbn in Hrows, Hseq. subst mseq'.
    by_faults env; rewrite ?Hsel, ?Hsel'; cbn; by_connection;
      try settle_same_for Hrows;
      destruct found; cbn; try settle_same_for Hrows;
      destruct (d !! "media_type"); cbn; try settle_same_for Hrows;
      destruct (d !! "status"); cbn; by_connection; settle_same_for Hrows.
  - absurd_method Hm.
  - absurd_method Hm.
Qed.

Lemma item_api_own_rows (env : Env) (req : Request) (s s' : Store) (id uid : Z) :
  authenticated req uid → same_for uid s s' →
  (serve (item_api id) env req s').1 = (serve (item_api id) env req s).1
  ∧ same_for uid (serve (item_api id) env req s).2 (serve (item_api id) env req s').2.
Proof.
  intros Hauth [Hrows Hseq]. unfold authenticated in Hauth.
  unfold serve, item_api, route, jwt_required.
  destruct (decide (method req ∈ [DELETE; PUT])) as [Hm|Hm]; [|by split].
  rewrite Hauth. unfold_view. destruct (db_up env); cbn; [|by split].
  unfold same_for, rows_of in *.
  destruct s as [[us ms] useq mseq], s' as [[us' ms'] useq' mseq'].
  cbn in Hrows, Hseq. subst mseq'.
  assert (length (filter (targeted id uid) ms') = length (filter (targeted id uid) ms))
    as Hcount by by rewrite !targeted_own, Hrows.
  destruct (method req) eqn:Hmeth; cbn.
  - absurd_method Hm.
  - absurd_method Hm.
  - destruct (body req) as [| |d]; cbn; try by split.
    destruct (d !! "title") as [t|]; cbn; [|by split].
    destruct (d !! "media_type") as [mt|]; cbn; [|by split].
    destruct (d !! "status") as [st|]; cbn; [|by split].
    unfold update_media.
    by_faults env; by_connection; rewrite ?Hcount;
      try case_bool_decide; cbn;
      (split; [done|]); (split; [|done]); cbn; try done;
      rewrite !update_own by done; by rewrite Hrows.
  - unfold delete_media.
    by_faults env; by_connection; rewrite ?Hcount;
      try case_bool_decide; cbn;
      (split; [done|]); (split; [|done]); cbn; try done;
      by rewrite !delete_own, Hrows.
Qed.

(** C1. Whatever the store does (reachable or not, refusing any of its
    calls or not), a request to /api/media and a request to /api/media/{id}
    that carry a token verifying to the user A leave every user record and
    every media row of another owner as they were; every row in the response
    is a stored row whose [user_id] is A; a [user_id] written into the body
    of the request changes neither the response nor the store; and every
    statement reads the rows of A only: were the rows of the other owners
    any others, the response (the rows listed, the answer of the duplicate
    check, found or not found) and the rows of A afterwards would be the
    same.  The rows are selected by the identity of the token, for every
    [media_id], search string and body. *)
Theorem tenant_isolation (env : Env) (req_media req_item : Request) (s : Store)
    (A id : Z) :
  authenticated req_media A → authenticated req_item A →
  isolated media_api env req_media s A ∧ isolated (item_api id) env req_item s A.
Proof.
  intros Hmedia Hitem. split; (split; [|split; [|split; [|split]]]).
  - by apply media_api_others_kept.
  - intros B HB. apply (others_kept_rows_of A); [|done].
    by apply media_api_others_kept.
  - intros resp j. by apply media_api_lists_own.
  - intros d v. by apply media_api_ignores_user_id.
  - intros s'. by apply media_api_own_rows.
  - by apply item_api_others_kept.
  - intros B HB. apply (others_kept_rows_of A); [|done].
    by apply item_api_others_kept.
  - intros resp j Hr Hj. by destruct (item_api_lists_nothing env req_item s id resp j).
  - intros d v. by apply item_api_ignores_user_id.
  - intros s'. by apply item_api_own_rows.
Qed.

(** *** Validation, and a store that cannot be reached *)

(** X1. With the administrator key, a registration whose JSON object has no
    [username] or no [password], or has one that Python takes for false
    (null, the empty text, 0, false), is answered 400 before a connection
    is opened: the store is not called and stays as it was, reachable or
    not. *)
Theorem register_empty_credentials (env : Env) (req : Request) (s : Store)
    (d : gmap string pyval) :
  method req = POST → x_admin_key req = Some ADMIN_MASTER_KEY →
  body req = JsonObject d →
  truthy (default PNone (d !! "username")) = false
  ∨ truthy (default PNone (d !! "password")) = false →
  serve admin_register env req s = (Ok empty_credentials, s)
  ∧ store_errors admin_register env req s = [].
Proof.
  intros Hm Hk Hb Hfalsy.
  unfold admin_register, generate_password_hash. unfold_view. rewrite Hm, Hk, Hb.
  rewrite decide_True by (repeat constructor).
  rewrite decide_False by (intros H; by apply H).
  cbn. destruct Hfalsy as [->| ->]; cbn; rewrite ?orb_true_r; cbn; by destruct s.
Qed.

(** X2. When no connection can be opened, every view that gets as far as
    connecting answers 500 with the message "DB Error" and leaves the store
    as it was.  The two catalogue views connect first, so this is their
    answer to every authenticated request, whatever its body; the login
    reads its JSON object first, and the registration checks the key and
    the two fields first. *)
Theorem store_unreachable (env : Env) (req : Request) (s : Store) (id uid : Z)
    (d : gmap string pyval) :
  db_up env = false →
  (authenticated req uid → method req ∈ [GET; POST] →
   serve media_api env req s = (Ok db_unreachable, s))
  ∧ (authenticated req uid → method req ∈ [DELETE; PUT] →
     serve (item_api id) env req s = (Ok db_unreachable, s))
  ∧ (method req = POST → body req = JsonObject d →
     serve login env req s = (Ok db_unreachable, s))
  ∧ (method req = POST → x_admin_key req = Some ADMIN_MASTER_KEY →
     body req = JsonObject d →
     truthy (default PNone (d !! "username")) = true →
     truthy (default PNone (d !! "password")) = true →
     serve admin_register env req s = (Ok db_unreachable, s)).
Proof.
  intros Hdown. split; [|split; [|split]].
  - intros Hauth Hm. unfold authenticated in Hauth.
    unfold serve, media_api, route, jwt_required. rewrite Hauth.
    unfold_view. rewrite Hdown. rewrite decide_True by done. cbn. by destruct s.
  - intros Hauth Hm. unfold authenticated in Hauth.
    unfold serve, item_api, route, jwt_required. rewrite Hauth.
    unfold_view. rewrite Hdown. rewrite decide_True by done. cbn. by destruct s.
  - intros Hm Hb. unfold login, check_password_hash. unfold_view.
    rewrite Hm, Hb, Hdown. rewrite decide_True by (repeat constructor).
    cbn. by destruct s.
  - intros Hm Hk Hb Hu Hp. unfold admin_register, generate_password_hash. unfold_view.
    rewrite Hm, Hk, Hb, Hdown. rewrite decide_True by (repeat constructor).
    rewrite decide_False by (intros H; by apply H).
    cbn. rewrite Hu, Hp. cbn. by destruct s.
Qed.

(** *** What the login leaves alone, and what it lets through *)

Lemma select_user_answer (s : Store) (name : pyval) :
  ∃ found, select_user name s = (inr found, s).
Proof. unfold select_user. by eexists. Qed.

(** X3. The login writes nothing: after it the store is the store before
    it, for every request and whatever the store does. *)
Theorem login_reads_only (env : Env) (req : Request) (s : Store) :
  (serve login env req s).2 = s.
Proof.
  unfold login, check_password_hash. unfold_view.
  destruct (decide (method req ∈ [POST])) as [Hm|Hm]; [|by destruct s].
  destruct (body req) as [| |d]; cbn; try by destruct s.
  destruct (db_up env); cbn; [|by destruct s].
  destruct (select_user_answer s (default PNone (d !! "username"))) as [found Hsel].
  destruct (faults env) as [|[e|] plan]; cbn; rewrite ?Hsel; cbn;
    try (by destruct s);
    (destruct found as [user|]; cbn; [|by destruct s]);
    (destruct (default PNone (d !! "password")); cbn; try (by destruct s));
    destruct (verify_password _ _); cbn; by destruct s.
Qed.


(** X5. A GET of /api/media writes nothing: after it the store is the store
    before it, for every request and whatever the store does. *)
Theorem list_reads_only (env : Env) (req : Request) (s : Store) :
  method req = GET → (serve media_api env req s).2 = s.
Proof.
  intros Hm. unfold serve, media_api, route, jwt_required. rewrite Hm.
  rewrite decide_True by (repeat constructor).
  destruct (bearer req ≫= decode_token) as [uid|]; [|by destruct s].
  unfold_view. destruct (db_up env); cbn; [|by destruct s].
  destruct (select_media_rows s uid (default EmptyString (args_q req)))
    as (items & Hsel & _).
  by_faults env; rewrite ?Hsel; cbn; by_connection; by destruct s.
Qed.

(** *** Registration, login and the token together *)

Lemma login_checks_password (env : Env) (req : Request) (s : Store)
    (d : gmap string pyval) (name p : string) (user : User.t) :
  method req = POST → body req = JsonObject d →
  d !! "username" = Some (PStr name) → d !! "password" = Some (PStr p) →
  db_up env = true → faults env = [] →
  user_named s name user →
  serve login env req s
  = (Ok (if verify_password (User.password_hash user) p
         then logged_in user else unauthorized), s).
Proof.
  intros Hm Hb Hu Hp Hup Hf Hnamed. unfold login, check_password_hash. unfold_view.
  rewrite Hm, Hb, Hup, Hf, Hu, Hp.
  rewrite decide_True by (repeat constructor). cbn.
  rewrite (select_user_named _ _ user) by done. cbn.
  destruct (verify_password _ _); cbn; by destruct s.
Qed.

(** X6. Registration, login and token fit together.  Let the password
    library accept a password against its own hash, and the token library
    read back the identity it signed.  After a new name was registered with
    a password, a login with the same name and password is answered 200
    with the token of the new [user_id], and a GET of /api/media with that
    token is answered 200 with the media rows stored under that
    [user_id]. *)
Theorem register_then_login (env1 env2 env3 : Env) (reg log get : Request) (s : Store)
    (d : gmap string pyval) (u p : string) :
  method reg = POST → x_admin_key reg = Some ADMIN_MASTER_KEY →
  method log = POST → body reg = JsonObject d → body log = JsonObject d →
  d !! "username" = Some (PStr u) → d !! "password" = Some (PStr p) →
  u ≠ EmptyString → p ≠ EmptyString →
  db_up env1 = true → faults env1 = [] →
  db_up env2 = true → faults env2 = [] →
  db_up env3 = true → faults env3 = [] →
  (∀ r, r ∈ users (tables s) → User.username r ≠ PStr u) →
  verify_password (hash_password (salt env1) p) p = true →
  decode_token (create_access_token (users_user_id_seq s)) = Some (users_user_id_seq s) →
  method get = GET → args_q get = None →
  bearer get = Some (create_access_token (users_user_id_seq s)) →
  let new_user :=
    User.mk (users_user_id_seq s) (PStr u) (hash_password (salt env1) p) in
  ∃ s1 items,
    serve admin_register env1 reg s
    = (Ok (created_user (PStr u) (users_user_id_seq s)), s1)
    ∧ serve login env2 log s1 = (Ok (logged_in new_user), s1)
    ∧ serve media_api env3 get s1 = (Ok (listing items), s1)
    ∧ items ≡ₚ rows_of (users_user_id_seq s) (tables s).
Proof.
  intros Hmr Hk Hml Hbr Hbl Hu Hp Hune Hpne Hup1 Hf1 Hup2 Hf2 Hup3 Hf3 Hfresh
    Hverify Htoken Hmg Hq Hbearer new_user.
  pose proof (register_fresh env1 reg s d u p Hmr Hk Hbr Hu Hp Hune Hpne Hup1 Hf1 Hfresh)
    as Hreg.
  match type of Hreg with _ = (_, ?after) => set (s1 := after) in * end.
  assert (user_named s1 u new_user) as Hnamed.
  { split; [|split; [done|]].
    - cbn. apply elem_of_app. right. by apply list_elem_of_singleton.
    - intros other Hin Hname. cbn in Hin. apply elem_of_app in Hin as [Hin|Hin].
      + by destruct (Hfresh other Hin).
      + by apply list_elem_of_singleton in Hin. }
  pose proof (login_checks_password env2 log s1 d u p new_user
                Hml Hbl Hu Hp Hup2 Hf2 Hnamed) as Hlog.
  cbn in Hlog. rewrite Hverify in Hlog.
  assert (authenticated get (users_user_id_seq s)) as Hauth.
  { unfold authenticated. by rewrite Hbearer. }
  destruct (media_listed env3 get s1 _ Hmg Hauth Hup3 Hf3) as (items & Hlist & _ & Hperm).
  exists s1, items. split; [done|]. split; [done|]. split; [done|].
  rewrite Hperm, Hq. by rewrite filter_all.
Qed.

(** *** Deleting and updating an item of one's own *)

Lemma length_filter_pos {A : Type} (P : A → Prop) `{!∀ x, Decision (P x)}
    (l : list A) (x : A) :
  x ∈ l → P x → length (filter P l) ≠ 0%nat.
Proof.
  intros Hx HP Hlen. assert (x ∈ filter P l) as Hin by by apply list_elem_of_filter.
  destruct (filter P l); [by apply elem_of_nil in Hin|done].
Qed.

(** X7. An authenticated DELETE of an item the caller owns, served while
    the store can be reached and does not fail, is answered 200 and takes
    away the rows with that [media_id] and the caller's [user_id]; all other
    rows, and the users, stay as they were and in their order.  The same
    DELETE once more is answered 404. *)
Theorem delete_own_item (env : Env) (req : Request) (s : Store) (id uid : Z)
    (r : MediaItem.t) :
  method req = DELETE → authenticated req uid →
  db_up env = true → faults env = [] →
  r ∈ media_items (tables s) →
  MediaItem.media_id r = id → MediaItem.user_id r = uid →
  let s' :=
    set_tables s (mkTables (users (tables s))
                    (filter (λ x, ¬ (MediaItem.media_id x = id ∧ MediaItem.user_id x = uid))
                            (media_items (tables s)))) in
  serve (item_api id) env req s = (Ok deleted, s')
  ∧ serve (item_api id) env req s' = (Ok (not_found DELETE), s').
Proof.
  intros Hm Hauth Hup Hf Hr Hid Huid s'. split.
  - unfold authenticated in Hauth.
    unfold serve, item_api, route, jwt_required. rewrite Hm, Hauth.
    unfold_view. rewrite Hup, Hf.
    rewrite decide_True by (repeat constructor). cbn.
    unfold delete_media. cbn.
    rewrite bool_decide_false by by apply (length_filter_pos _ _ r).
    by destruct s.
  - rewrite <- Hm. apply (item_absent env req s' id uid); [done|by left|done|done|].
    intros x Hx. cbn in Hx. by apply list_elem_of_filter in Hx as [? _].
Qed.

(** X8. An authenticated PUT on an item the caller owns, with the three
    required fields, served while the store can be reached and does not
    fail, is answered 200.  It overwrites [title], [media_type], [status],
    [current_progress], [rating] and [comment] of the rows with that
    [media_id] and the caller's [user_id]: an optional field the body leaves
    out becomes null, it is not kept.  [media_id], [user_id] and
    [added_date] stay, and so do all other rows and the users.  The caller's
    next GET lists the item as rewritten. *)
Theorem update_then_list (env1 env2 : Env) (put get : Request) (s : Store)
    (id uid : Z) (d : gmap string pyval) (t mt st : pyval) (r : MediaItem.t) :
  method put = PUT → authenticated put uid → body put = JsonObject d →
  d !! "title" = Some t → d !! "media_type" = Some mt → d !! "status" = Some st →
  method get = GET → authenticated get uid → args_q get = None →
  db_up env1 = true → faults env1 = [] → db_up env2 = true → faults env2 = [] →
  r ∈ media_items (tables s) →
  MediaItem.media_id r = id → MediaItem.user_id r = uid →
  ∃ s1 items,
    serve (item_api id) env1 put s = (Ok updated, s1)
    ∧ users (tables s1) = users (tables s)
    ∧ media_items (tables s1)
      = (λ x, if decide (MediaItem.media_id x = id ∧ MediaItem.user_id x = uid)
              then rewritten d t mt st x else x) <$> media_items (tables s)
    ∧ serve media_api env2 get s1 = (Ok (listing items), s1)
    ∧ rewritten d t mt st r ∈ items.
Proof.
  intros Hmp Hap Hb Ht Hmt Hst Hmg Hag Hq Hup1 Hf1 Hup2 Hf2 Hr Hid Huid.
  set (s1 := set_tables s (mkTables (users (tables s))
               ((λ x, if decide (targeted id uid x) then rewritten d t mt st x else x)
                <$> media_items (tables s)))).
  destruct (media_listed env2 get s1 uid Hmg Hag Hup2 Hf2) as (items & Hlist & _ & Hperm).
  exists s1, items. split; [|split; [done|split; [done|split; [done|]]]].
  - unfold authenticated in Hap.
    unfold serve, item_api, route, jwt_required. rewrite Hmp, Hap.
    unfold_view. rewrite Hb, Ht, Hmt, Hst, Hup1, Hf1.
    rewrite decide_True by (repeat constructor). cbn.
    unfold update_media. cbn.
    rewrite bool_decide_false by by apply (length_filter_pos _ _ r).
    by destruct s.
  - rewrite Hperm, Hq. apply list_elem_of_filter. split; [done|].
    apply list_elem_of_filter. split; [done|].
    cbn. apply list_elem_of_fmap. exists r. split; [|done].
    by rewrite decide_True.
Qed.

(** *** A body that is no JSON object *)

(** X9. The catalogue views read the body inside their [try]: an
    authenticated POST /api/media or PUT /api/media/{id} whose body is no
    JSON object is answered 500 with the text of the exception, without a
    call to the store.  The registration (once the key is right) and the
    login read the body before their [try]: there the exception leaves the
    view.  The store stays as it was in all four. *)
Theorem body_without_object (env : Env) (req : Request) (s : Store) (id uid : Z) :
  no_object req →
  (authenticated req uid → method req = POST → db_up env = true →
   ∃ e, serve media_api env req s = (Ok (internal_error e), s)
        ∧ store_errors media_api env req s = [])
  ∧ (authenticated req uid → method req = PUT → db_up env = true →
     ∃ e, serve (item_api id) env req s = (Ok (internal_error e), s)
          ∧ store_errors (item_api id) env req s = [])
  ∧ (method req = POST → ∃ e, serve login env req s = (Raise e, s))
  ∧ (method req = POST → x_admin_key req = Some ADMIN_MASTER_KEY →
     ∃ e, serve admin_register env req s = (Raise e, s)).
Proof.
  intros Hbody. split; [|split; [|split]].
  - intros Hauth Hm Hup. unfold authenticated in Hauth.
    unfold store_errors, serve, media_api, route, jwt_required. rewrite Hm, Hauth.
    unfold_view. rewrite Hup. rewrite decide_True by (repeat constructor).
    destruct Hbody as [-> | ->]; cbn;
      [exists (HTTPException 400 "Failed to decode JSON object")
      |exists (TypeError "object is not subscriptable")];
      (split; [by destruct s|done]).
  - intros Hauth Hm Hup. unfold authenticated in Hauth.
    unfold store_errors, serve, item_api, route, jwt_required. rewrite Hm, Hauth.
    unfold_view. rewrite Hup. rewrite decide_True by (repeat constructor).
    destruct Hbody as [-> | ->]; cbn;
      [exists (HTTPException 400 "Failed to decode JSON object")
      |exists (TypeError "object is not subscriptable")];
      (split; [by destruct s|done]).
  - intros Hm. unfold login, check_password_hash. unfold_view. rewrite Hm.
    rewrite decide_True by (repeat constructor).
    destruct Hbody as [-> | ->]; cbn; eexists; by destruct s.
  - intros Hm Hk. unfold admin_register, generate_password_hash. unfold_view.
    rewrite Hm, Hk. rewrite decide_True by (repeat constructor).
    rewrite decide_False by (intros H; by apply H).
    destruct Hbody as [-> | ->]; cbn; eexists; by destruct s.
Qed.

(** *** One title once per owner *)

Lemma sql_eq_sym (a b : pyval) : sql_eq a b = sql_eq b a.
Proof.
  destruct a, b; cbn; try done; apply bool_decide_ext; split; congruence.
Qed.





(** X11. An update does not check the title.  When the caller has an item
    with a text title and another item under the [media_id] of the path, a
    PUT that gives the second the title of the first is answered 200, and
    afterwards the caller has two rows with that title, even if titles were
    unique per owner before. *)
Theorem update_can_repeat_title (env : Env) (req : Request) (s : Store)
    (id uid : Z) (d : gmap string pyval) (t : string) (mt st : pyval)
    (r1 r2 : MediaItem.t) :
  method req = PUT → authenticated req uid → body req = JsonObject d →
  d !! "title" = Some (PStr t) → d !! "media_type" = Some mt → d !! "status" = Some st →
  db_up env = true → faults env = [] →
  r1 ∈ media_items (tables s) → r2 ∈ media_items (tables s) →
  MediaItem.user_id r1 = uid → MediaItem.title r1 = PStr t → MediaItem.media_id r1 ≠ id →
  MediaItem.user_id r2 = uid → MediaItem.media_id r2 = id →
  ∃ s1, serve (item_api id) env req s = (Ok updated, s1)
        ∧ ¬ titles_unique (media_items (tables s1)).
Proof.
  intros Hm Hauth Hb Ht Hmt Hst Hup Hf Hr1 Hr2 Hu1 Ht1 Hid1 Hu2 Hid2.
  set (f := λ x, if decide (targeted id uid x) then rewritten d (PStr t) mt st x else x).
  exists (set_tables s (mkTables (users (tables s)) (f <$> media_items (tables s)))).
  split.
  - unfold authenticated in Hauth.
    unfold serve, item_api, route, jwt_required. rewrite Hm, Hauth.
    unfold_view. rewrite Hb, Ht, Hmt, Hst, Hup, Hf.
    rewrite decide_True by (repeat constructor). cbn.
    unfold update_media. cbn.
    rewrite bool_decide_false by by apply (length_filter_pos _ _ r2).
    by destruct s.
  - cbn. unfold titles_unique.
    assert (f r1 = r1) as Hf1.
    { unfold f. rewrite decide_False; [done|]. by intros [? _]. }
    assert (f r2 = rewritten d (PStr t) mt st r2) as Hf2.
    { unfold f. by rewrite decide_True. }
    assert (same_title r1 (f r2)) as Hsame.
    { rewrite Hf2. split; cbn; [congruence|]. rewrite Ht1. by apply sql_eq_text. }
    assert (same_title (f r2) r1) as Hsame'.
    { destruct Hsame as [? Heq]. split; [done|]. by rewrite sql_eq_sym. }
    apply list_elem_of_split in Hr1 as (l1 & l2 & Hrows). rewrite Hrows in Hr2 |- *.
    rewrite fmap_app, fmap_cons, Hf1. intros Hsorted.
    apply StronglySorted_app in Hsorted as (Hcross & _ & Htail).
    apply elem_of_app in Hr2 as [Hr2|Hr2].
    + apply (Hcross (f r2) r1); [by apply list_elem_of_fmap_2|left|done].
    + apply elem_of_cons in Hr2 as [->|Hr2]; [done|].
      apply StronglySorted_cons in Htail as [Hall _].
      rewrite Forall_forall in Hall.
      apply (Hall (f r2)); [by apply list_elem_of_fmap_2|done].
Qed.

(** *** What a search cannot miss *)

Lemma like_tokens_unescaped (pattern : list string) :
  forallb (λ c, negb (String.eqb c "\")) pattern = true →
  like_tokens false (pattern ++ ["%"]) = Some ((like_token_of <$> pattern) ++ [AnyRun]).
Proof.
  induction pattern as [|c pattern IH]; [done|]. intros Hq.
  cbn in Hq. apply andb_prop in Hq as [Hc Hq]. apply negb_true_iff in Hc.
  cbn [app like_tokens]. by rewrite Hc, (IH Hq).
Qed.

Lemma like_tokens_no_escape (q : string) :
  no_escape q = true →
  like_tokens false (utf8_chars ("%" +:+ q +:+ "%"))
  = Some (AnyRun :: tokens_of q ++ [AnyRun]).
Proof.
  intros Hq. rewrite utf8_chars_wrapped. cbn [like_tokens].
  by rewrite like_tokens_unescaped.
Qed.

Lemma ilike_tokens_of (fold : string → string) (pattern text tail : list string)
    (rest : list like_token) :
  fold <$> text = fold <$> pattern →
  ilike_tokens fold rest tail = true →
  ilike_tokens fold ((like_token_of <$> pattern) ++ rest) (text ++ tail) = true.
Proof.
  revert text. induction pattern as [|c pattern IH]; intros text Hlow Hrest.
  - destruct text; [done|discriminate].
  - destruct text as [|d text]; [discriminate|].
    cbn in Hlow. injection Hlow as Hc Hlow.
    specialize (IH text Hlow Hrest).
    change ((like_token_of <$> c :: pattern) ++ rest)
      with (like_token_of c :: ((like_token_of <$> pattern) ++ rest)).
    change ((d :: text) ++ tail) with (d :: (text ++ tail)).
    unfold like_token_of.
    destruct (String.eqb c "%"); [|destruct (String.eqb c "_")].
    + apply ilike_run. exists [d], (text ++ tail). by split.
    + done.
    + change (String.eqb (fold c) (fold d)
              && ilike_tokens fold ((like_token_of <$> pattern) ++ rest) (text ++ tail)
              = true).
      apply andb_true_intro. split; [|exact IH]. apply String.eqb_eq. by rewrite Hc.
Qed.

Lemma search_hit_contains (q : string) (r : MediaItem.t) :
  no_escape q = true → contains_ci q (MediaItem.title r) → search_hit q r = true.
Proof.
  intros Hq (text & before & after & Htitle & Hsub). unfold search_hit.
  destruct (String.eqb q EmptyString); [done|].
  rewrite like_tokens_no_escape by done. rewrite Htitle. cbn -[ilike_tokens].
  apply fmap_app_inv in Hsub as (t1 & t23 & _ & Hsub & ->).
  symmetry in Hsub. apply fmap_app_inv in Hsub as (t2 & t3 & Hmid & _ & ->).
  apply ilike_run. exists t1, (t2 ++ t3). split; [done|].
  unfold tokens_of. apply ilike_tokens_of; [done|].
  apply ilike_run. exists t3, []. by rewrite app_nil_r.
Qed.

(** X12. A search misses nothing it should find, as long as the search
    string has no backslash: served while the store can be reached and does
    not fail, an authenticated GET /api/media?q= lists every row of the
    caller whose title contains [q] as a substring up to the case of
    letters, also when [q] holds [%] or [_]. *)
Theorem search_finds_substring (env : Env) (req : Request) (s : Store) (uid : Z)
    (r : MediaItem.t) :
  method req = GET → authenticated req uid →
  db_up env = true → faults env = [] →
  no_escape (default EmptyString (args_q req)) = true →
  r ∈ rows_of uid (tables s) →
  contains_ci (default EmptyString (args_q req)) (MediaItem.title r) →
  ∃ items, serve media_api env req s = (Ok (listing items), s) ∧ r ∈ items.
Proof.
  intros Hm Hauth Hup Hf Hq Hr Hsub.
  destruct (media_listed env req s uid Hm Hauth Hup Hf) as (items & Hserve & _ & Hperm).
  exists items. split; [done|]. rewrite Hperm.
  apply list_elem_of_filter. split; [|done]. by apply search_hit_contains.
Qed.

End Views.

(** ** The theorems at work on the small installation *)

(** The scenario of the specification: Alice is registered and logs in,
    adds Dune, adds it again, Bob tries to delete it, Alice deletes it. *)
Example scenario :
  let register := admin_register Demo.key Demo.hash_password in
  let login := login Demo.verify_password Demo.create_access_token in
  let media := media_api Demo.decode_token Demo.lower_char in
  let item := item_api Demo.decode_token 1 in
  let '(r1, s1) := serve register Demo.healthy Demo.register_alice Demo.empty_store in
  let '(r2, s2) := serve login Demo.healthy Demo.login_alice s1 in
  let '(r3, s3) := serve media Demo.healthy Demo.post_dune s2 in
  let '(r4, s4) := serve media Demo.healthy Demo.post_dune s3 in
  let '(r5, s5) := serve item Demo.healthy Demo.delete_item_as_bob s4 in
  let '(r6, s6) := serve item Demo.healthy Demo.delete_item s5 in
  status_of <$> [r1; r2; r3; r4; r5; r6]
  = Some <$> [201; 200; 201; 409; 404; 200]
  ∧ r3 = Ok (created_media 1)
  ∧ media_items (tables s5) = media_items (tables s3)
  ∧ media_items (tables s6) = [].
Proof. vm_compute. by repeat split. Qed.

Lemma admin_register_forbidden_witness :
  serve (admin_register Demo.key Demo.hash_password)
        Demo.healthy Demo.register_without_key Demo.store
  = (Ok forbidden, Demo.store).
Proof.
  apply admin_register_forbidden; [reflexivity|discriminate].
Defined.

Lemma register_twice_witness :
  ∃ s1 s2,
    serve (admin_register Demo.key Demo.hash_password)
          Demo.healthy Demo.register_alice Demo.empty_store
    = (Ok (created_user (PStr "alice") 1), s1)
    ∧ serve (admin_register Demo.key Demo.hash_password)
            Demo.healthy Demo.register_alice s1
      = (Ok username_taken, s2)
    ∧ store_errors (admin_register Demo.key Demo.hash_password)
                   Demo.healthy Demo.register_alice s1
      = [IntegrityError "duplicate key value violates unique constraint"]
    ∧ users (tables s1) = [User.mk 1 (PStr "alice") "hash:pw1"]
    ∧ tables s2 = tables s1.
Proof.
  apply (register_twice Demo.key Demo.hash_password Demo.healthy Demo.healthy
           Demo.register_alice Demo.register_alice Demo.empty_store
           (Demo.credentials "alice" "pw1") (Demo.credentials "alice" "pw1")
           "alice" "pw1" "pw1");
    try reflexivity; try discriminate.
  intros r Hr. vm_compute in Hr. inversion Hr.
Defined.


(** C5, as first stated, fails: a login that carries no password is
    answered 401 when no user has the name, and is not answered when a user
    has it: the password check raises on the missing password, and the view
    has no [except] clause.  So the two cases can be told apart, and the
    second is no 401. *)
Lemma login_without_password_counterexample :
  (∀ r, r ∈ users (tables Demo.store) → User.username r ≠ PStr "carol")
  ∧ serve (login Demo.verify_password Demo.create_access_token)
          Demo.healthy (Demo.login_without_password "carol") Demo.store
    = (Ok unauthorized, Demo.store)
  ∧ Demo.alice ∈ users (tables Demo.store)
  ∧ serve (login Demo.verify_password Demo.create_access_token)
          Demo.healthy (Demo.login_without_password "alice") Demo.store
    = (Raise (AttributeError "object has no attribute 'encode'"), Demo.store).
Proof.
  split; [|split; [reflexivity|split; [left|reflexivity]]].
  intros r Hin.
  apply elem_of_cons in Hin as [->|Hin]; [discriminate|].
  apply elem_of_cons in Hin as [->|Hin]; [discriminate|].
  by apply elem_of_nil in Hin.
Qed.

Lemma create_media_witness :
  serve (media_api Demo.decode_token Demo.lower_char) Demo.healthy Demo.post_solaris Demo.store
  = (Ok (created_media 3),
     mkStore (mkTables [Demo.alice; Demo.bob]
                [Demo.dune; Demo.solaris;
                 MediaItem.mk 3 1 (PStr "Solaris") (PStr "movie") (PStr "watching")
                              PNone PNone PNone 300])
             3 4).
Proof.
  destruct (create_media Demo.decode_token Demo.lower_char Demo.healthy Demo.post_solaris Demo.store 1
              Demo.solaris_fields "Solaris"
              eq_refl eq_refl eq_refl eq_refl eq_refl eq_refl) as [_ Hnew].
  apply (Hnew (PStr "movie") (PStr "watching")); [|reflexivity|reflexivity].
  intros r Hin [Htitle Howner].
  apply elem_of_cons in Hin as [->|Hin]; [discriminate|].
  apply elem_of_cons in Hin as [->|Hin]; [discriminate|].
  by apply elem_of_nil in Hin.
Defined.

Lemma item_not_found_stable_witness :
  serve (item_api Demo.decode_token 2) Demo.healthy Demo.delete_item
        (repeated (item_api Demo.decode_token 2) Demo.healthy Demo.delete_item 3 Demo.store)
  = (Ok (not_found DELETE), Demo.store).
Proof.
  apply (item_not_found_stable Demo.decode_token Demo.healthy Demo.delete_item
           Demo.store 2 1 3); [reflexivity|by left|reflexivity|reflexivity|].
  intros r Hin [Hid Howner].
  apply elem_of_cons in Hin as [->|Hin]; [discriminate|].
  apply elem_of_cons in Hin as [->|Hin]; [discriminate|].
  by apply elem_of_nil in Hin.
Defined.

Lemma list_media_witness :
  ∃ items,
    serve (media_api Demo.decode_token Demo.lower_char) Demo.healthy Demo.search_dun Demo.store
    = (Ok (listing items), Demo.store)
    ∧ StronglySorted (λ a b, MediaItem.added_date b ≤ MediaItem.added_date a) items
    ∧ ∀ r, r ∈ items ↔ r ∈ rows_of 1 (tables Demo.store)
                       ∧ contains_ci Demo.lower_char "dUN" (MediaItem.title r).
Proof.
  destruct (list_media Demo.decode_token Demo.lower_char Demo.healthy Demo.search_dun Demo.store 1
              eq_refl eq_refl eq_refl eq_refl)
    as (items & Hserve & Hsorted & _ & _ & Hplain & _).
  exists items. split; [exact Hserve|]. split; [exact Hsorted|].
  apply Hplain; [reflexivity|discriminate].
Defined.

(** C2, as first stated, fails: the search string [_] is read by [ILIKE]
    as "any one character", so Alice's search for [_] lists Dune, whose
    title has no underscore. *)
Lemma search_underscore_counterexample :
  ∃ r, serve (media_api Demo.decode_token Demo.lower_char) Demo.healthy Demo.search_underscore Demo.store
       = (Ok (listing [r]), Demo.store)
       ∧ ¬ contains_ci Demo.lower_char "_" (MediaItem.title r).
Proof.
  exists Demo.dune. split; [reflexivity|].
  intros (text & before & after & Htext & Hsub). injection Htext as <-.
  vm_compute in Hsub.
  do 4 (destruct before as [|? before];
        [discriminate Hsub|injection Hsub as _ Hsub]).
  by destruct before.
Qed.

Lemma create_then_list_witness :
  ∃ s1 resp,
    serve (media_api Demo.decode_token Demo.lower_char)
          Demo.healthy Demo.post_solaris Demo.store
    = (Ok (mkResponse
             (JObject [("status", JString "success");
                       ("message", JString "新增成功");
                       ("media_id", JNum 3)])
             201), s1)
    ∧ serve (media_api Demo.decode_token Demo.lower_char) Demo.healthy Demo.list_all s1
      = (Ok resp, s1)
    ∧ status resp = 200
    ∧ JObject [("media_id", JNum 3);
               ("user_id", JNum 1);
               ("title", JString "Solaris");
               ("media_type", JString "movie");
               ("status", JString "watching");
               ("current_progress", JNull);
               ("rating", JNull);
               ("comment", JNull);
               ("added_date", JNum 300)]
      ∈ data_of resp.
Proof.
  apply (create_then_list Demo.decode_token Demo.lower_char Demo.healthy Demo.healthy
           Demo.post_solaris Demo.list_all Demo.store 1 Demo.solaris_fields
           "Solaris" "movie" "watching" None None None);
    try reflexivity.
  intros r Hin [Htitle Howner].
  apply elem_of_cons in Hin as [->|Hin]; [discriminate|].
  apply elem_of_cons in Hin as [->|Hin]; [discriminate|].
  by apply elem_of_nil in Hin.
Defined.

Lemma missing_required_field_witness :
  ∃ resp,
    serve (item_api Demo.decode_token 1) Demo.healthy Demo.put_title_only Demo.store
    = (Ok resp, Demo.store)
    ∧ status resp = 500
    ∧ (db_up Demo.healthy = true → resp = internal_error (KeyError "media_type")).
Proof.
  apply (missing_required_field Demo.decode_token Demo.lower_char Demo.healthy Demo.put_title_only
           Demo.store 1 1 (<["title" := PStr "Dune"]> ∅) "media_type");
    reflexivity.
Defined.

(** C10, as first stated, fails: Alice already has Dune, and her POST with
    the title Dune and neither [media_type] nor [status] is answered 409 by
    the duplicate check, not 500. *)
Lemma post_title_only_counterexample :
  body Demo.post_dune_title_only = JsonObject (<["title" := PStr "Dune"]> ∅)
  ∧ (<["title" := PStr "Dune"]> ∅ : gmap string pyval) !! "media_type" = None
  ∧ serve (media_api Demo.decode_token Demo.lower_char) Demo.healthy Demo.post_dune_title_only Demo.store
    = (Ok (duplicate_title (PStr "Dune")), Demo.store)
  ∧ status (duplicate_title (PStr "Dune")) ≠ 500.
Proof. repeat split; [reflexivity..|discriminate]. Qed.


(** When the failing call has lost the connection, the rollback of the
    handler raises and nothing is answered: Alice's DELETE, with the server
    gone at its first call. *)
Example rollback_on_lost_connection :
  serve (item_api Demo.decode_token 1) Demo.failing Demo.delete_item Demo.store
  = (Raise (InterfaceError "connection already closed"), Demo.store)
  ∧ store_errors (item_api Demo.decode_token 1) Demo.failing Demo.delete_item Demo.store
    = [Disconnected "server closed the connection unexpectedly"].
Proof. by split. Qed.


Lemma tenant_isolation_witness :
  isolated (media_api Demo.decode_token Demo.lower_char)
           Demo.healthy Demo.post_solaris Demo.store 1
  ∧ isolated (item_api Demo.decode_token 2) Demo.healthy Demo.delete_item Demo.store 1.
Proof.
  apply tenant_isolation; reflexivity.
Defined.

Lemma register_empty_credentials_witness :
  serve (admin_register Demo.key Demo.hash_password)
        Demo.unreachable Demo.register_without_password Demo.store
  = (Ok empty_credentials, Demo.store)
  ∧ store_errors (admin_register Demo.key Demo.hash_password)
                 Demo.unreachable Demo.register_without_password Demo.store
    = [].
Proof.
  apply (register_empty_credentials Demo.key Demo.hash_password Demo.unreachable
           Demo.register_without_password Demo.store (<["username" := PStr "carol"]> ∅));
    [reflexivity|reflexivity|reflexivity|right; reflexivity].
Defined.

Lemma store_unreachable_witness :
  serve (media_api Demo.decode_token Demo.lower_char) Demo.unreachable Demo.post_without_json Demo.store
  = (Ok db_unreachable, Demo.store).
Proof.
  apply (store_unreachable Demo.key Demo.hash_password Demo.verify_password
           Demo.create_access_token Demo.decode_token Demo.lower_char
           Demo.unreachable Demo.post_without_json Demo.store 1 1 ∅);
    [reflexivity|reflexivity|right; left].
Defined.


Lemma list_reads_only_witness :
  (serve (media_api Demo.decode_token Demo.lower_char) Demo.failing Demo.list_all Demo.store).2
  = Demo.store.
Proof. apply list_reads_only. reflexivity. Defined.

Lemma register_then_login_witness :
  ∃ s1 items,
    serve (admin_register Demo.key Demo.hash_password)
          Demo.healthy Demo.register_alice Demo.empty_store
    = (Ok (created_user (PStr "alice") 1), s1)
    ∧ serve (login Demo.verify_password Demo.create_access_token)
            Demo.healthy Demo.login_alice s1
      = (Ok (logged_in Demo.create_access_token (User.mk 1 (PStr "alice") "hash:pw1")), s1)
    ∧ serve (media_api Demo.decode_token Demo.lower_char) Demo.healthy Demo.list_all s1
      = (Ok (listing items), s1)
    ∧ items ≡ₚ [].
Proof.
  apply (register_then_login Demo.key Demo.hash_password Demo.verify_password
           Demo.create_access_token Demo.decode_token Demo.lower_char
           Demo.healthy Demo.healthy Demo.healthy
           Demo.register_alice Demo.login_alice Demo.list_all Demo.empty_store
           (Demo.credentials "alice" "pw1") "alice" "pw1");
    try reflexivity; try discriminate.
  intros r Hr. by apply elem_of_nil in Hr.
Defined.

Lemma delete_own_item_witness :
  serve (item_api Demo.decode_token 1) Demo.healthy Demo.delete_item Demo.store
  = (Ok deleted, mkStore (mkTables [Demo.alice; Demo.bob] [Demo.solaris]) 3 3)
  ∧ serve (item_api Demo.decode_token 1) Demo.healthy Demo.delete_item
          (mkStore (mkTables [Demo.alice; Demo.bob] [Demo.solaris]) 3 3)
    = (Ok (not_found DELETE), mkStore (mkTables [Demo.alice; Demo.bob] [Demo.solaris]) 3 3).
Proof.
  apply (delete_own_item Demo.decode_token Demo.healthy Demo.delete_item Demo.store
           1 1 Demo.dune); try reflexivity.
  left.
Defined.

Lemma update_then_list_witness :
  ∃ s1 items,
    serve (item_api Demo.decode_token 1) Demo.healthy Demo.put_messiah Demo.store
    = (Ok updated, s1)
    ∧ users (tables s1) = [Demo.alice; Demo.bob]
    ∧ media_items (tables s1)
      = [MediaItem.mk 1 1 (PStr "Dune Messiah") (PStr "book") (PStr "completed")
                      PNone (PInt 4) PNone 100;
         Demo.solaris]
    ∧ serve (media_api Demo.decode_token Demo.lower_char) Demo.healthy Demo.list_all s1
      = (Ok (listing items), s1)
    ∧ MediaItem.mk 1 1 (PStr "Dune Messiah") (PStr "book") (PStr "completed")
                   PNone (PInt 4) PNone 100
      ∈ items.
Proof.
  apply (update_then_list Demo.decode_token Demo.lower_char Demo.healthy Demo.healthy
           Demo.put_messiah Demo.list_all Demo.store 1 1 Demo.messiah_fields
           (PStr "Dune Messiah") (PStr "book") (PStr "completed") Demo.dune);
    try reflexivity.
  left.
Defined.

Lemma body_without_object_witness :
  ∃ e, serve (media_api Demo.decode_token Demo.lower_char) Demo.healthy Demo.post_without_json Demo.store
       = (Ok (internal_error e), Demo.store)
       ∧ store_errors (media_api Demo.decode_token Demo.lower_char)
                      Demo.healthy Demo.post_without_json Demo.store
         = [].
Proof.
  apply (body_without_object Demo.key Demo.hash_password Demo.verify_password
           Demo.create_access_token Demo.decode_token Demo.lower_char
           Demo.healthy Demo.post_without_json Demo.store 1 1);
    [left|..]; reflexivity.
Defined.


Lemma update_can_repeat_title_witness :
  ∃ s1, serve (item_api Demo.decode_token 3) Demo.healthy Demo.put_dune Demo.larger_store
        = (Ok updated, s1)
        ∧ ¬ titles_unique (media_items (tables s1)).
Proof.
  apply (update_can_repeat_title Demo.decode_token Demo.healthy Demo.put_dune
           Demo.larger_store 3 1 Demo.dune_fields "Dune" (PStr "book") (PStr "reading")
           Demo.dune Demo.hyperion);
    try reflexivity; try discriminate.
  - left.
  - right. right. left.
Defined.

Lemma search_finds_substring_witness :
  ∃ items,
    serve (media_api Demo.decode_token Demo.lower_char) Demo.healthy Demo.search_dun Demo.store
    = (Ok (listing items), Demo.store)
    ∧ Demo.dune ∈ items.
Proof.
  apply (search_finds_substring Demo.decode_token Demo.lower_char Demo.healthy Demo.search_dun
           Demo.store 1 Demo.dune); try reflexivity.
  - left.
  - exists "Dune", [], ["e"]. split; reflexivity.
Defined.
